(** * FreightParse API: the request pipeline of [main.py]

    A shallow embedding of the parts of [main.py] that sit between the
    untrusted input and the response schema: authentication, the sliding
    window rate limiter, upload text extraction, the model-reply normalizer
    of [parse_document] and the binding of the recovered JSON onto the
    response models.

    What [main.py] gets from libraries ([json.loads], pydantic's conversion
    of numeric strings, UTF-8 decoding, pdfplumber, the model client) is
    taken as a parameter of the function that calls it; what [main.py]
    itself computes is a definition here.  Python [str] values are lists of
    characters with code points below 256; Python [float] values are
    kept as the rationals they are (the code never does arithmetic on them
    apart from [now - t] in the rate limiter), and an [int] that becomes a
    [float] is rounded to the nearest double. *)

From Stdlib Require Import ZArith QArith Lqa Ascii String DecimalString List Bool Lia.
From stdpp Require Import base option list gmap strings.

Set Warnings "-register-all".

Local Open Scope Z_scope.

(** * Part I: the program *)

(** ** Python text *)

Definition text := list ascii.

(** A string literal as text. *)
Definition t (s : string) : text := list_ascii_of_string s.

Definition nl : ascii := ascii_of_nat 10.
Definition dquote : ascii := ascii_of_nat 34.

(** JSON samples are written with ['] for the double quote. *)
Definition js (s : string) : text :=
  map (fun c => if Ascii.eqb c "'"%char then dquote else c) (t s).

(** [str.isspace] on one character (code points below 256). *)
Definition is_space (c : ascii) : bool :=
  let n := nat_of_ascii c in
  ((9 <=? n) && (n <=? 13) || (28 <=? n) && (n <=? 32) || (n =? 133) || (n =? 160))%nat.

Fixpoint lstrip (s : text) : text :=
  match s with
  | c :: s' => if is_space c then lstrip s' else s
  | [] => []
  end.

Definition rstrip (s : text) : text := rev (lstrip (rev s)).

(** [s.strip()] *)
Definition strip (s : text) : text := rstrip (lstrip s).

(** [s.startswith(p)] *)
Fixpoint startswith (p s : text) : bool :=
  match p, s with
  | [], _ => true
  | a :: p', b :: s' => Ascii.eqb a b && startswith p' s'
  | _ :: _, [] => false
  end.

(** [s.endswith(p)] *)
Definition endswith (p s : text) : bool := startswith (rev p) (rev s).

(** [s.split(c)] for a one-character separator: never the empty list. *)
Fixpoint split (c : ascii) (s : text) : list text :=
  match s with
  | [] => [[]]
  | x :: s' =>
      if Ascii.eqb x c then [] :: split c s'
      else match split c s' with
           | l :: ls => (x :: l) :: ls
           | [] => [[x]]
           end
  end.

(** [sep.join(parts)] *)
Fixpoint join (sep : text) (parts : list text) : text :=
  match parts with
  | [] => []
  | [p] => p
  | p :: ps => p ++ sep ++ join sep ps
  end.

(** [s.find(c)] for a one-character needle: the first index, or -1. *)
Fixpoint find_from (c : ascii) (s : text) (i : Z) : Z :=
  match s with
  | [] => -1
  | x :: s' => if Ascii.eqb x c then i else find_from c s' (i + 1)
  end.

Definition find (c : ascii) (s : text) : Z := find_from c s 0.

(** [s.rfind(c)]: the last index, or -1. *)
Definition rfind (c : ascii) (s : text) : Z :=
  let r := find c (rev s) in
  if r <? 0 then -1 else Z.of_nat (length s) - 1 - r.

(** [s[i:j]] for [0 <= i]; Python clips both ends to the length. *)
Definition slice (s : text) (i j : Z) : text :=
  take (Z.to_nat (j - i)) (drop (Z.to_nat i) s).

(** [s.lower()] on one character (code points below 256): the ASCII
    capitals and the Latin-1 ones, the multiplication sign left alone. *)
Definition lower_char (c : ascii) : ascii :=
  let n := nat_of_ascii c in
  if ((65 <=? n) && (n <=? 90) || (192 <=? n) && (n <=? 222) && negb (n =? 215))%nat
  then ascii_of_nat (n + 32) else c.

Definition lower (s : text) : text := map lower_char s.

Definition text_eqb (a b : text) : bool := bool_decide (a = b).

(** Truthiness of a [str]. *)
Definition nonempty (s : text) : bool :=
  match s with [] => false | _ :: _ => true end.

(** ** Exceptions and results *)

Inductive exn :=
  | HTTPException (status_code : Z) (detail : text)
  | JSONDecodeError
  | ValidationError
  | TypeError
  | RuntimeError (msg : text)
  | IndexError
  | RecursionError
  | ValueError.

Inductive result (A : Type) :=
  | Ok (a : A)
  | Raise (e : exn).
Arguments Ok {A} a.
Arguments Raise {A} e.

Definition bind {A B} (r : result A) (k : A -> result B) : result B :=
  match r with
  | Ok a => k a
  | Raise e => Raise e
  end.

(** ** JSON values, as [json.loads] builds them *)

Inductive json :=
  | JNull
  | JBool (b : bool)
  | JInt (n : Z)
  | JFloat (x : Q)
  | JStr (s : string)
  | JList (items : list json)
  | JObj (members : list (string * json)).

(** [d.get(k)] on a dict kept as its members in source order; a repeated
    key keeps its last value, as in [json.loads]. *)
Fixpoint dict_get (k : string) (d : list (string * json)) : option json :=
  match d with
  | [] => None
  | (k', v) :: d' =>
      match dict_get k d' with
      | Some w => Some w
      | None => if String.eqb k k' then Some v else None
      end
  end.

(** ** A reference [json.loads]

    [parse_document] only needs [json.loads] as a function from text to a
    value or an exception, and the theorems below take it as a parameter.
    This recursive-descent reader of the JSON grammar (strict mode: no
    control characters inside strings; [\u] escapes below 256 only) is the
    instance at which the pipeline is run on sample replies; what it does
    not read it refuses with [json.JSONDecodeError]. *)

Module JsonRef.

Definition ch_eq (c d : ascii) : bool := Ascii.eqb c d.

Definition json_ws (c : ascii) : bool :=
  let n := nat_of_ascii c in
  ((n =? 32) || (n =? 9) || (n =? 10) || (n =? 13))%nat.

Fixpoint skip_ws (s : text) : text :=
  match s with
  | c :: s' => if json_ws c then skip_ws s' else s
  | [] => []
  end.

Definition digit_of (c : ascii) : option Z :=
  let n := nat_of_ascii c in
  if ((48 <=? n) && (n <=? 57))%nat then Some (Z.of_nat (n - 48)) else None.

Definition hex_of (c : ascii) : option Z :=
  let n := nat_of_ascii c in
  if ((48 <=? n) && (n <=? 57))%nat then Some (Z.of_nat (n - 48))
  else if ((97 <=? n) && (n <=? 102))%nat then Some (Z.of_nat (n - 87))
  else if ((65 <=? n) && (n <=? 70))%nat then Some (Z.of_nat (n - 55))
  else None.

(** The digits at the head of [s]: their value, their count, the rest. *)
Fixpoint lex_digits (s : text) (acc : Z) (cnt : nat) : Z * nat * text :=
  match s with
  | c :: s' =>
      match digit_of c with
      | Some d => lex_digits s' (10 * acc + d) (S cnt)
      | None => (acc, cnt, s)
      end
  | [] => (acc, cnt, [])
  end.

(** [m * 10^e] as a rational. *)
Definition scale10 (m e : Z) : Q :=
  if 0 <=? e then inject_Z (m * 10 ^ e) else Qmake m (Z.to_pos (10 ^ (- e))).

(** A number token: an [int] when it has neither fraction nor exponent, a
    [float] otherwise. *)
Definition lex_number (s : text) : option (json * text) :=
  let '(sign, s1) :=
    match s with
    | c :: r => if ch_eq c "-" then (-1, r) else (1, s)
    | [] => (1, s)
    end in
  let '(ip, n, s2) := lex_digits s1 0 0 in
  let leading_zero :=
    match s1 with c :: _ => ch_eq c "0" && (1 <? n)%nat | [] => false end in
  if (n =? 0)%nat || leading_zero then None
  else
    let '(fp, m, s3, has_frac) :=
      match s2 with
      | c :: r =>
          if ch_eq c "." then let '(fp, m, s3) := lex_digits r 0 0 in (fp, m, s3, true)
          else (0, 0%nat, s2, false)
      | [] => (0, 0%nat, s2, false)
      end in
    if has_frac && (m =? 0)%nat then None
    else
      let mant := sign * (ip * 10 ^ Z.of_nat m + fp) in
      match s3 with
      | c :: r =>
          if ch_eq c "e" || ch_eq c "E" then
            let '(esign, r1) :=
              match r with
              | d :: r' =>
                  if ch_eq d "-" then (-1, r') else if ch_eq d "+" then (1, r') else (1, r)
              | [] => (1, r)
              end in
            let '(ev, k, s4) := lex_digits r1 0 0 in
            if (k =? 0)%nat then None
            else Some (JFloat (scale10 mant (esign * ev - Z.of_nat m)), s4)
          else if has_frac then Some (JFloat (scale10 mant (- Z.of_nat m)), s3)
          else Some (JInt mant, s3)
      | [] =>
          if has_frac then Some (JFloat (scale10 mant (- Z.of_nat m)), s3)
          else Some (JInt mant, s3)
      end.

(** The characters of a string token after its opening quote. *)
Fixpoint lex_string (fuel : nat) (s : text) (acc : text) : option (string * text) :=
  match fuel with
  | O => None
  | S fuel' =>
      match s with
      | [] => None
      | c :: r =>
          if ch_eq c dquote then Some (string_of_list_ascii (rev acc), r)
          else if ch_eq c "\" then
            match r with
            | e :: r' =>
                if ch_eq e dquote || ch_eq e "\" || ch_eq e "/" then lex_string fuel' r' (e :: acc)
                else if ch_eq e "n" then lex_string fuel' r' (ascii_of_nat 10 :: acc)
                else if ch_eq e "t" then lex_string fuel' r' (ascii_of_nat 9 :: acc)
                else if ch_eq e "r" then lex_string fuel' r' (ascii_of_nat 13 :: acc)
                else if ch_eq e "b" then lex_string fuel' r' (ascii_of_nat 8 :: acc)
                else if ch_eq e "f" then lex_string fuel' r' (ascii_of_nat 12 :: acc)
                else if ch_eq e "u" then
                  match r' with
                  | h1 :: h2 :: h3 :: h4 :: r'' =>
                      match hex_of h1, hex_of h2, hex_of h3, hex_of h4 with
                      | Some 0, Some 0, Some a, Some b =>
                          lex_string fuel' r'' (ascii_of_nat (Z.to_nat (16 * a + b)) :: acc)
                      | _, _, _, _ => None
                      end
                  | _ => None
                  end
                else None
            | [] => None
            end
          else if (nat_of_ascii c <? 32)%nat then None
          else lex_string fuel' r (c :: acc)
      end
  end.

Definition parser := text -> option (json * text).

(** The items of an array, [s] standing where an item is expected. *)
Fixpoint parse_items (pv : parser) (fuel : nat) (s : text) (acc : list json)
  : option (list json * text) :=
  match fuel with
  | O => None
  | S fuel' =>
      match pv s with
      | None => None
      | Some (v, r) =>
          match skip_ws r with
          | c :: r' =>
              if ch_eq c "," then parse_items pv fuel' r' (v :: acc)
              else if ch_eq c "]" then Some (rev (v :: acc), r')
              else None
          | [] => None
          end
      end
  end.

(** The members of an object, [s] standing where a key is expected. *)
Fixpoint parse_members (pv : parser) (fuel : nat) (s : text)
  (acc : list (string * json)) : option (list (string * json) * text) :=
  match fuel with
  | O => None
  | S fuel' =>
      match skip_ws s with
      | q :: r =>
          if ch_eq q dquote then
            match lex_string (S (length r)) r [] with
            | None => None
            | Some (k, r1) =>
                match skip_ws r1 with
                | c :: r2 =>
                    if ch_eq c ":" then
                      match pv r2 with
                      | None => None
                      | Some (v, r3) =>
                          match skip_ws r3 with
                          | d :: r4 =>
                              if ch_eq d "," then parse_members pv fuel' r4 ((k, v) :: acc)
                              else if ch_eq d "}" then Some (rev ((k, v) :: acc), r4)
                              else None
                          | [] => None
                          end
                      end
                    else None
                | [] => None
                end
            end
          else None
      | [] => None
      end
  end.

Fixpoint parse_value (fuel : nat) (s : text) : option (json * text) :=
  match fuel with
  | O => None
  | S fuel' =>
      match skip_ws s with
      | [] => None
      | c :: r =>
          if ch_eq c "{" then
            match skip_ws r with
            | d :: r' =>
                if ch_eq d "}" then Some (JObj [], r')
                else option_map (fun '(ms, r1) => (JObj ms, r1))
                       (parse_members (parse_value fuel') fuel' r [])
            | [] => None
            end
          else if ch_eq c "[" then
            match skip_ws r with
            | d :: r' =>
                if ch_eq d "]" then Some (JList [], r')
                else option_map (fun '(vs, r1) => (JList vs, r1))
                       (parse_items (parse_value fuel') fuel' r [])
            | [] => None
            end
          else if ch_eq c dquote then
            option_map (fun '(k, r1) => (JStr k, r1)) (lex_string (S (length r)) r [])
          else if startswith (t "true") (c :: r) then Some (JBool true, drop 4 (c :: r))
          else if startswith (t "false") (c :: r) then Some (JBool false, drop 5 (c :: r))
          else if startswith (t "null") (c :: r) then Some (JNull, drop 4 (c :: r))
          else lex_number (c :: r)
      end
  end.

(** The whole text must be one value, whitespace around it allowed. *)
Definition decode (s : text) : option json :=
  match parse_value (S (length s)) s with
  | Some (v, r) => match skip_ws r with [] => Some v | _ :: _ => None end
  | None => None
  end.

Definition json_loads (s : text) : result json :=
  match decode s with
  | Some v => Ok v
  | None => Raise JSONDecodeError
  end.

End JsonRef.

(** ** The response normalizer of [parse_document] *)

Definition fence : text := t "```".

Definition PARSE_FAILURE : exn :=
  HTTPException 502 (t "Failed to parse structured response from AI model").

Section Normalizer.

(** [json.loads]: the value, [json.JSONDecodeError], or another exception
    (the [RecursionError] of deep nesting, the plain [ValueError] of a
    numeral over the digit limit). *)
Variable json_loads : text -> result json.

(** The model call of [call_claude]: its text, or the exception it raises. *)
Variable call_claude : text -> text -> result text.

(** Lines 476-480: when the trimmed reply starts with a fence, every line
    that starts with a fence once stripped is dropped. *)
Definition strip_fences (cleaned : text) : text :=
  if startswith fence cleaned then
    join [nl]
      (List.filter (fun l => negb (startswith fence (strip l))) (split nl cleaned))
  else cleaned.

(** Lines 475-493, from the raw reply on.  The [except] clause of line
    484 catches [json.JSONDecodeError] and nothing else, and the second
    [json.loads] stands inside it with no handler of its own. *)
Definition normalize_reply (raw : text) : result json :=
  let cleaned := strip_fences (strip raw) in
  match json_loads cleaned with
  | Ok v => Ok v
  | Raise JSONDecodeError =>
      let start := find "{" cleaned in
      let end_ := rfind "}" cleaned + 1 in
      if (0 <=? start) && (start <? end_) then json_loads (slice cleaned start end_)
      else Raise PARSE_FAILURE
  | Raise e => Raise e
  end.

Definition parse_document (system_prompt text_ : text) (carrier_hint : option text)
  : result json :=
  let user_msg :=
    match carrier_hint with
    | Some h =>
        if nonempty h then t "[Carrier hint: " ++ h ++ t "]" ++ [nl; nl] ++ text_
        else text_
    | None => text_
    end in
  bind (call_claude system_prompt user_msg) normalize_reply.

End Normalizer.

(** A reply wrapped in fences that stand on lines of their own. *)
Definition fenced (lang s : text) : text :=
  fence ++ lang ++ [nl] ++ s ++ [nl] ++ fence.

(** The text of a JSON object: it opens with a brace and closes with one. *)
Definition braced (s : text) : bool :=
  match s with
  | c :: r =>
      Ascii.eqb c "{" && match rev r with d :: _ => Ascii.eqb d "}" | [] => false end
  | [] => false
  end.

(** No line of [s] starts, once stripped, with a fence. *)
Definition no_fence_line (s : text) : bool :=
  forallb (fun l => negb (startswith fence (strip l))) (split nl s).

(** What stands on the last line of [s], and on its first line. *)
Definition last_line (s : text) : text := List.last (split nl s) [].

Definition first_line (s : text) : text := hd [] (split nl s).

(** ** Response models

    A pydantic model is its list of declared fields: name, annotated type
    and default.  [validate] is pydantic's default (lax) conversion of a
    JSON value to an annotated type; [extra] keys are ignored. *)

Inductive pyval :=
  | VNone
  | VStr (s : string)
  | VInt (n : Z)
  | VFloat (x : Q)
  | VDict (d : list (string * json))
  | VList (items : list pyval)
  | VModel (attrs : list (string * pyval)).

Inductive fdefault :=
  | Required
  | Default (v : pyval).

Inductive ftype :=
  | TStr
  | TInt
  | TFloat
  | TDict
  | TOptional (ty : ftype)
  | TList (ty : ftype)
  | TModel (fields : list (string * (ftype * fdefault))).

Definition field : Type := string * (ftype * fdefault).

(** [name: Optional[ty] = None] *)
Definition optional (name : string) (ty : ftype) : field :=
  (name, (TOptional ty, Default VNone)).

(** [name: list[ty] = []] *)
Definition listof (name : string) (ty : ftype) : field :=
  (name, (TList ty, Default (VList []))).

(** [name: ty] *)
Definition required (name : string) (ty : ftype) : field :=
  (name, (ty, Required)).

Local Open Scope string_scope.

Definition BOLParty : list field :=
  [ optional "name" TStr; optional "address" TStr; optional "contact" TStr ].

Definition BOLContainer : list field :=
  [ optional "number" TStr; optional "size" TStr; optional "type" TStr;
    optional "seal_number" TStr; optional "weight_kg" TFloat ].

Definition BOLResponse : list field :=
  [ optional "bol_number" TStr;
    optional "booking_number" TStr;
    optional "shipper" (TModel BOLParty);
    optional "consignee" (TModel BOLParty);
    optional "notify_party" (TModel BOLParty);
    optional "carrier" TStr;
    optional "vessel_name" TStr;
    optional "voyage_number" TStr;
    optional "port_of_loading" TStr;
    optional "port_of_discharge" TStr;
    optional "place_of_delivery" TStr;
    optional "date_of_issue" TStr;
    optional "shipped_on_board_date" TStr;
    listof "containers" (TModel BOLContainer);
    optional "commodity_description" TStr;
    optional "gross_weight_kg" TFloat;
    optional "number_of_packages" TInt;
    optional "package_type" TStr;
    optional "freight_terms" TStr;
    listof "hs_codes" TStr;
    ("confidence", (TFloat, Default (VFloat 0)));
    listof "warnings" TStr ].

Definition InvoiceLineItem : list field :=
  [ required "description" TStr;
    optional "charge_type" TStr;
    optional "amount" TFloat;
    optional "currency" TStr;
    optional "reference" TStr ].

Definition FreightInvoiceResponse : list field :=
  [ optional "invoice_number" TStr;
    optional "invoice_date" TStr;
    optional "due_date" TStr;
    optional "vendor_name" TStr;
    optional "vendor_address" TStr;
    optional "bill_to_name" TStr;
    optional "bill_to_address" TStr;
    listof "bol_references" TStr;
    listof "container_references" TStr;
    listof "po_references" TStr;
    listof "line_items" (TModel InvoiceLineItem);
    optional "subtotal" TFloat;
    optional "tax" TFloat;
    optional "total" TFloat;
    optional "currency" TStr;
    optional "payment_terms" TStr;
    optional "charge_breakdown" TDict;
    ("confidence", (TFloat, Default (VFloat 0)));
    listof "warnings" TStr ].

Definition PackingListItem : list field :=
  [ optional "item_number" TStr;
    required "description" TStr;
    optional "quantity" TFloat;
    optional "unit" TStr;
    optional "net_weight_kg" TFloat;
    optional "gross_weight_kg" TFloat;
    optional "dimensions" TStr;
    optional "hs_code" TStr;
    optional "country_of_origin" TStr;
    optional "carton_numbers" TStr ].

Definition PackingListResponse : list field :=
  [ optional "packing_list_number" TStr;
    optional "date" TStr;
    optional "shipper" TStr;
    optional "consignee" TStr;
    listof "po_references" TStr;
    listof "invoice_references" TStr;
    listof "items" (TModel PackingListItem);
    optional "total_packages" TInt;
    optional "total_gross_weight_kg" TFloat;
    optional "total_net_weight_kg" TFloat;
    optional "total_volume_cbm" TFloat;
    ("confidence", (TFloat, Default (VFloat 0)));
    listof "warnings" TStr ].

Local Close Scope string_scope.

(** The three document kinds and the model each endpoint answers with. *)
Inductive doc_kind := BillOfLading | FreightInvoice | PackingList.

Definition response_model (k : doc_kind) : list field :=
  match k with
  | BillOfLading => BOLResponse
  | FreightInvoice => FreightInvoiceResponse
  | PackingList => PackingListResponse
  end.

(** [r.name] on a constructed model. *)
Fixpoint assoc (name : string) (attrs : list (string * pyval)) : option pyval :=
  match attrs with
  | [] => None
  | (n, v) :: attrs' => if String.eqb name n then Some v else assoc name attrs'
  end.

Definition attr (name : string) (r : pyval) : option pyval :=
  match r with
  | VModel attrs => assoc name attrs
  | _ => None
  end.

(** [float(n)] for an [int], which is how an integer becomes the value of
    a [float] field: the nearest double, ties to the even one.  [None] is
    the [OverflowError] of an integer that rounds to [2^1024] or beyond,
    which the validator reports as a value that is no float. *)
Definition float_of_int (n : Z) : option Q :=
  let a := Z.abs n in
  let extra := Z.log2 a + 1 - 53 in
  if extra <=? 0 then Some (inject_Z n)
  else
    let q := Z.shiftr a extra in
    let r := a - Z.shiftl q extra in
    let half := Z.shiftl 1 (extra - 1) in
    let q' := if (half <? r) || ((r =? half) && Z.odd q) then q + 1 else q in
    let v := Z.shiftl q' extra in
    if 2 ^ 1024 <=? v then None else Some (inject_Z (Z.sgn n * v)).

(** A float as the value of an [int] field: it must have no fractional
    part and lie strictly between [-2^63] and [2^63]. *)
Definition int_of_float (x : Q) : option Z :=
  if Qnum x mod Zpos (Qden x) =? 0 then
    let n := Qnum x / Zpos (Qden x) in
    if (- 2 ^ 63 <? n) && (n <? 2 ^ 63) then Some n else None
  else None.

Section Validation.

(** pydantic's reading of a string as a [float] and as an [int]. *)
Variable str_to_float : string -> option Q.
Variable str_to_int : string -> option Z.

Definition validate_str (j : json) : option pyval :=
  match j with
  | JStr s => Some (VStr s)
  | _ => None
  end.

Definition validate_float (j : json) : option pyval :=
  match j with
  | JFloat x => Some (VFloat x)
  | JInt n => option_map VFloat (float_of_int n)
  | JBool b => Some (VFloat (if b then 1 else 0))
  | JStr s => option_map VFloat (str_to_float s)
  | _ => None
  end.

Definition validate_int (j : json) : option pyval :=
  match j with
  | JInt n => Some (VInt n)
  | JFloat x => option_map VInt (int_of_float x)
  | JBool b => Some (VInt (if b then 1 else 0))
  | JStr s => option_map VInt (str_to_int s)
  | _ => None
  end.

Definition validate_dict (j : json) : option pyval :=
  match j with
  | JObj d => Some (VDict d)
  | _ => None
  end.

(** Every item, or nothing. *)
Fixpoint all_or_nothing {A B} (f : A -> option B) (l : list A) : option (list B) :=
  match l with
  | [] => Some []
  | x :: l' =>
      match f x with
      | Some y => option_map (cons y) (all_or_nothing f l')
      | None => None
      end
  end.

Fixpoint validate (ty : ftype) (j : json) {struct ty} : option pyval :=
  match ty with
  | TStr => validate_str j
  | TInt => validate_int j
  | TFloat => validate_float j
  | TDict => validate_dict j
  | TOptional ty' =>
      match j with
      | JNull => Some VNone
      | _ => validate ty' j
      end
  | TList ty' =>
      match j with
      | JList items => option_map VList (all_or_nothing (validate ty') items)
      | _ => None
      end
  | TModel fields =>
      match j with
      | JObj d =>
          option_map VModel
            ((fix bind_fields (fs : list field) : option (list (string * pyval)) :=
                match fs with
                | [] => Some []
                | (n, (fty, dflt)) :: fs' =>
                    match
                      match dict_get n d with
                      | Some x => validate fty x
                      | None =>
                          match dflt with
                          | Default v => Some v
                          | Required => None
                          end
                      end
                    with
                    | Some v => option_map (cons (n, v)) (bind_fields fs')
                    | None => None
                    end
                end) fields)
      | _ => None
      end
  end.

(** The value one declared field gets from the keyword arguments [d]. *)
Definition field_value (d : list (string * json)) (f : field) : option pyval :=
  match dict_get (fst f) d with
  | Some x => validate (fst (snd f)) x
  | None =>
      match snd (snd f) with
      | Default v => Some v
      | Required => None
      end
  end.

Definition bind_fields (d : list (string * json)) (fs : list field)
  : option (list (string * pyval)) :=
  all_or_nothing (fun f => option_map (pair (fst f)) (field_value d f)) fs.

(** The model called with [data] as its keyword arguments: only a dict can
    be unpacked that way. *)
Definition construct (model : list field) (data : json) : result pyval :=
  match data with
  | JObj _ =>
      match validate (TModel model) data with
      | Some r => Ok r
      | None => Raise ValidationError
      end
  | _ => Raise TypeError
  end.

End Validation.

(** Plain decimal numerals, the strings the samples below use. *)
Module NumRef.

Definition float_of_str (s : string) : option Q :=
  match JsonRef.lex_number (list_ascii_of_string s) with
  | Some (JInt n, []) => Some (inject_Z n)
  | Some (JFloat x, []) => Some x
  | _ => None
  end.

Definition int_of_str (s : string) : option Z :=
  match JsonRef.lex_number (list_ascii_of_string s) with
  | Some (JInt n, []) => Some n
  | _ => None
  end.

End NumRef.

(** ** The text routes

    Lines 522-540, once the caller is authenticated and admitted: the
    model's reply is normalized and bound to the response model of the
    document kind.  The system prompt of the kind is passed in. *)
Definition parse_route (json_loads : text -> result json)
  (call_claude : text -> text -> result text)
  (str_to_float : string -> option Q) (str_to_int : string -> option Z)
  (k : doc_kind) (system_prompt text_ : text) (carrier_hint : option text)
  : result pyval :=
  bind (parse_document json_loads call_claude system_prompt text_ carrier_hint)
       (construct str_to_float str_to_int (response_model k)).

(** *** Wrong shapes

    A value has the wrong shape for an annotated type when the conversion
    table has no row for it, at the value itself or at any depth below:
    a container or null where a scalar is declared, a scalar where a list
    or a model is declared, text that is not a numeral where a number is
    declared, an integer beyond the doubles where a [float] is declared, a
    fraction or a float of magnitude [2^63] or more where an [int] is
    declared, a required field that is missing. *)

Definition is_text (j : json) : bool :=
  match j with JStr _ => true | _ => false end.

Definition is_list (j : json) : bool :=
  match j with JList _ => true | _ => false end.

Definition is_object (j : json) : bool :=
  match j with JObj _ => true | _ => false end.

(** Null, a list or an object: what no scalar type converts. *)
Definition is_compound (j : json) : bool :=
  match j with JNull | JList _ | JObj _ => true | _ => false end.

Section WrongShape.

Variable str_to_float : string -> option Q.
Variable str_to_int : string -> option Z.

Inductive wrong_shape : ftype -> json -> Prop :=
  | ws_str j :
      is_text j = false -> wrong_shape TStr j
  | ws_float_compound j :
      is_compound j = true -> wrong_shape TFloat j
  | ws_float_text s :
      str_to_float s = None -> wrong_shape TFloat (JStr s)
  | ws_float_overflow n :
      float_of_int n = None -> wrong_shape TFloat (JInt n)
  | ws_int_compound j :
      is_compound j = true -> wrong_shape TInt j
  | ws_int_text s :
      str_to_int s = None -> wrong_shape TInt (JStr s)
  | ws_int_float x :
      int_of_float x = None -> wrong_shape TInt (JFloat x)
  | ws_dict j :
      is_object j = false -> wrong_shape TDict j
  | ws_optional ty j :
      j <> JNull -> wrong_shape ty j -> wrong_shape (TOptional ty) j
  | ws_list ty j :
      is_list j = false -> wrong_shape (TList ty) j
  | ws_list_item ty items x :
      x ∈ items -> wrong_shape ty x -> wrong_shape (TList ty) (JList items)
  | ws_model fs j :
      is_object j = false -> wrong_shape (TModel fs) j
  | ws_model_field fs d n ty dflt x :
      (n, (ty, dflt)) ∈ fs -> dict_get n d = Some x -> wrong_shape ty x ->
      wrong_shape (TModel fs) (JObj d)
  | ws_model_missing fs d n ty :
      (n, (ty, Required)) ∈ fs -> dict_get n d = None ->
      wrong_shape (TModel fs) (JObj d).

End WrongShape.

(** The default a field declares, by the shape of its annotation: null
    for an optional field, the empty list for a list, 0.0 for the float
    [confidence]. *)
Definition declared_default (ty : ftype) : option pyval :=
  match ty with
  | TOptional _ => Some VNone
  | TList _ => Some (VList [])
  | TFloat => Some (VFloat 0)
  | _ => None
  end.

(** JSON numbers and the float each becomes. *)
Definition json_number (j : json) : option Q :=
  match j with
  | JFloat x => Some x
  | JInt n => float_of_int n
  | _ => None
  end.

(** ** Upload text extraction *)

Record UploadFile := {
  file_content : list ascii;
  file_content_type : option text;
  file_filename : option text
}.

Definition SUPPORTED_MIME_TYPES : list text :=
  [ t "application/pdf"; t "text/plain"; t "text/csv"; t "image/png";
    t "image/jpeg"; t "image/webp"; t "image/gif" ].

Definition MAX_FILE_SIZE : Z := 10 * 1024 * 1024.

(** One page as pdfplumber gives it: [extract_text()] and
    [extract_tables()], a table being rows of cells that may be [None]. *)
Record pdf_page := {
  page_text : option text;
  page_tables : list (list (list (option text)))
}.

(** The ends of the vision call of lines 423-453: the transcription,
    [anthropic.APIError], the [RuntimeError] of [get_client], and any other
    exception raised on the way, such as the [IndexError] of
    [message.content[0]] on a message with no content block. *)
Inductive vision_outcome :=
  | VisionText (s : text)
  | VisionAPIError (message : text)
  | VisionNoClient (msg : text)
  | VisionRaises (e : exn).

(** What extraction asks of the outside. *)
Record backend := {
  utf8_decode : list ascii -> text;
  pdf_open : list ascii -> list pdf_page + text;
  vision : text -> list ascii -> vision_outcome
}.

(** The work an extraction starts on the payload. *)
Inductive event :=
  | TextDecode
  | PdfParse
  | ModelCall (media_type : text).

Definition TOO_LARGE : exn := HTTPException 413 (t "File too large. Max 10 MB.").

Definition PDF_NO_TEXT : exn :=
  HTTPException 422
    (t "Could not extract text from PDF. The file may be image-only. Try using an OCR tool first, then submit the text.").

Definition UNSUPPORTED (content_type : text) : exn :=
  HTTPException 415
    (t "Unsupported file type: " ++ content_type
       ++ t ". Supported: PDF, PNG, JPEG, WebP, GIF, plain text.").

(** [str(cell) if cell else ""] *)
Definition cell_text (cell : option text) : text :=
  match cell with
  | Some s => if nonempty s then s else []
  | None => []
  end.

Definition row_text (row : list (option text)) : text :=
  join (t " | ") (map cell_text row).

(** Lines 388-400: the loops that append to [pages]. *)
Definition append_rows (pages : list text) (table : list (list (option text))) : list text :=
  fold_left (fun acc row => acc ++ [row_text row]) table pages.

Definition page_step (pages : list text) (page : pdf_page) : list text :=
  let pages1 :=
    match page_text page with
    | Some s => if nonempty s then pages ++ [s] else pages
    | None => pages
    end in
  fold_left append_rows (page_tables page) pages1.

Definition collect_pages (pdf : list pdf_page) : list text :=
  fold_left page_step pdf [].

Definition is_text_upload (content_type filename : text) : bool :=
  startswith (t "text/") content_type || endswith (t ".txt") filename.

Definition is_pdf_upload (content_type filename : text) : bool :=
  text_eqb content_type (t "application/pdf") || endswith (t ".pdf") filename.

Definition vision_media_type (content_type : text) : text :=
  if bool_decide (content_type ∈ [t "image/png"; t "image/jpeg"; t "image/webp"; t "image/gif"])
  then content_type else t "image/png".

(** Lines 370-459: the events started, and the result. *)
Definition extract_text_from_upload (B : backend) (file : UploadFile)
  : list event * result text :=
  let content := file_content file in
  if MAX_FILE_SIZE <? Z.of_nat (length content) then ([], Raise TOO_LARGE)
  else
    let content_type := default [] (file_content_type file) in
    let filename := lower (default [] (file_filename file)) in
    if is_text_upload content_type filename then
      ([TextDecode], Ok (utf8_decode B content))
    else if is_pdf_upload content_type filename then
      ([PdfParse],
       match pdf_open B content with
       | inl pdf =>
           let extracted := join [nl] (collect_pages pdf) in
           if nonempty (strip extracted) then Ok extracted else Raise PDF_NO_TEXT
       | inr msg => Raise (HTTPException 422 (t "Failed to read PDF: " ++ msg))
       end)
    else if startswith (t "image/") content_type then
      let media_type := vision_media_type content_type in
      ([ModelCall media_type],
       match vision B media_type content with
       | VisionText s => Ok s
       | VisionAPIError m => Raise (HTTPException 502 (t "Vision extraction error: " ++ m))
       | VisionNoClient m => Raise (RuntimeError m)
       | VisionRaises e => Raise e
       end)
    else ([], Raise (UNSUPPORTED content_type)).

(** The PDF text as section 4.1 words it: per page, the page text when
    there is any, then one pipe-delimited line per table row. *)
Definition page_lines (p : pdf_page) : list text :=
  match page_text p with
  | Some s => if nonempty s then [s] else []
  | None => []
  end ++ map row_text (concat (page_tables p)).

Definition pdf_text (pdf : list pdf_page) : text :=
  join [nl] (concat (map page_lines pdf)).

(** A backend for the samples: ASCII payloads decode to themselves, no
    payload is a PDF, the model transcribes every image to the same text. *)
Definition sample_backend : backend :=
  {| utf8_decode := fun content => content;
     pdf_open := fun _ => inr (t "No /Root object! - Is this really a PDF?");
     vision := fun _ _ => VisionText (t "BILL OF LADING") |}.

(** A 15 MiB upload declared as a PDF. *)
Definition fifteen_mib_pdf : UploadFile :=
  {| file_content := replicate (Z.to_nat (15 * 1024 * 1024)) "a"%char;
     file_content_type := Some (t "application/pdf");
     file_filename := Some (t "scan.pdf") |}.

(** A backend that reads every payload as the same two-page PDF: a page
    with text and a table, and a page with nothing on it. *)
Definition two_page_backend : backend :=
  {| utf8_decode := fun content => content;
     pdf_open := fun _ =>
       inl [ {| page_text := Some (t "BILL OF LADING");
                page_tables := [ [ [Some (t "Container"); Some (t "Weight")];
                                   [Some (t "MSCU7834521"); None] ] ] |};
             {| page_text := None; page_tables := [] |} ];
     vision := fun _ _ => VisionText [] |}.

Definition small_pdf : UploadFile :=
  {| file_content := t "%PDF-1.7";
     file_content_type := Some (t "application/pdf");
     file_filename := Some (t "BOL.PDF") |}.

(** ** Rate limiter (in memory, per key) *)

(** [str(n)] for an [int]. *)
Definition show_int (n : Z) : text := t (NilZero.string_of_int (Z.to_int n)).

Definition RATE_LIMITED (RATE_LIMIT RATE_WINDOW : Z) : exn :=
  HTTPException 429
    (t "Rate limit exceeded. Max " ++ show_int RATE_LIMIT ++ t " requests per "
       ++ show_int RATE_WINDOW ++ t "s.").

Definition Qltb (a b : Q) : bool := negb (Qle_bool b a).

(** The test of the comprehension at line 90: [now - t < RATE_WINDOW]. *)
Definition live (RATE_WINDOW : Z) (now hit : Q) : bool :=
  Qltb (now - hit) (inject_Z RATE_WINDOW).

(** Lines 87-96.  [rate_store] maps a key to its hits; the list is pruned
    in place whether or not the request is admitted. *)
Definition check_rate_limit (RATE_LIMIT RATE_WINDOW : Z) (now : Q) (key : string)
  (rate_store : gmap string (list Q)) : gmap string (list Q) * result unit :=
  let hits := default [] (rate_store !! key) in
  let hits := List.filter (live RATE_WINDOW now) hits in
  if RATE_LIMIT <=? Z.of_nat (length hits) then
    (<[key := hits]> rate_store, Raise (RATE_LIMITED RATE_LIMIT RATE_WINDOW))
  else (<[key := hits ++ [now]]> rate_store, Ok tt).

(** Calls for one key at the given times, one after the other. *)
Fixpoint run_calls (RATE_LIMIT RATE_WINDOW : Z) (key : string) (times : list Q)
  (rate_store : gmap string (list Q)) : gmap string (list Q) * list (result unit) :=
  match times with
  | [] => (rate_store, [])
  | now :: rest =>
      let '(store1, r) := check_rate_limit RATE_LIMIT RATE_WINDOW now key rate_store in
      let '(store2, rs) := run_calls RATE_LIMIT RATE_WINDOW key rest store1 in
      (store2, r :: rs)
  end.

(** Every hit in [hits] is out of the window at each of the times [nows]. *)
Definition all_expired (RATE_WINDOW : Z) (hits nows : list Q) : bool :=
  forallb (fun now => forallb (fun h => negb (live RATE_WINDOW now h)) hits) nows.

(** The times [nows] lie in one window: each is less than a window away
    from every other. *)
Definition one_window (RATE_WINDOW : Z) (nows : list Q) : bool :=
  forallb (fun a => forallb (fun b => live RATE_WINDOW a b) nows) nows.

(** At [later] the window that opened with the first of [times] is over. *)
Definition window_elapsed (RATE_WINDOW : Z) (times : list Q) (later : Q) : bool :=
  match times with
  | first :: _ => negb (live RATE_WINDOW later first)
  | [] => false
  end.

(** ** Authentication *)

(** [os.getenv("RAPIDAPI_PROXY_SECRET", "")] *)
Definition RAPIDAPI_SECRET (env_value : option text) : text := default [] env_value.

(** [set(filter(None, os.getenv("API_KEYS", "test-key").split(",")))] *)
Definition INTERNAL_API_KEYS (env_value : option text) : gset text :=
  list_to_set (List.filter nonempty (split ","%char (default (t "test-key") env_value))).

(** What [verify_api_key] reads of the request: the [X-API-Key] header. *)
Record Request := { x_api_key : option text }.

Definition UNAUTHORIZED : exn := HTTPException 401 (t "Invalid API key").

(** [request.headers.get("X-API-Key", "") if request else ""] *)
Definition direct_key (request : option Request) : text :=
  match request with
  | Some r => default [] (x_api_key r)
  | None => []
  end.

(** Lines 62-75.  [rapidapi_secret] is the [X-RapidAPI-Proxy-Secret]
    header, [None] when the request has none. *)
Definition verify_api_key (secret : text) (keys : gset text)
  (rapidapi_secret : option text) (request : option Request) : result text :=
  if nonempty secret && bool_decide (rapidapi_secret = Some secret) then Ok (t "rapidapi")
  else if bool_decide (direct_key request ∈ keys) then Ok (t "direct")
  else Raise UNAUTHORIZED.

(** ** The model client *)

Definition NO_API_KEY : text := t "ANTHROPIC_API_KEY not set".

(** Lines 103-108.  The client is stood for by the key it is built with;
    [lru_cache] keeps a client once built and never an exception. *)
Definition get_client (ANTHROPIC_API_KEY : option text) : result text :=
  match ANTHROPIC_API_KEY with
  | Some key => if nonempty key then Ok key else Raise (RuntimeError NO_API_KEY)
  | None => Raise (RuntimeError NO_API_KEY)
  end.

(** The ends of [client.messages.create]: a message, whose [content] is
    the list of its blocks (text blocks, the request naming no tool), the
    exception [anthropic.APIError], and any other exception. *)
Inductive api_reply :=
  | Message (content : list text)
  | APIError (message : text)
  | OtherError (e : exn).

(** [message.content[0].text] *)
Definition first_text (content : list text) : result text :=
  match content with
  | block :: _ => Ok block
  | [] => Raise IndexError
  end.

Definition DEFAULT_MODEL : text := t "claude-sonnet-4-5-20250514".

(** Lines 111-126.  [create client model max_tokens system user]. *)
Definition call_claude (ANTHROPIC_API_KEY CLAUDE_MODEL : option text)
  (create : text -> text -> Z -> text -> text -> api_reply)
  (system_prompt user_text : text) : result text :=
  match get_client ANTHROPIC_API_KEY with
  | Raise (RuntimeError e) => Raise (HTTPException 503 e)
  | Raise e => Raise e
  | Ok client =>
      match create client (default DEFAULT_MODEL CLAUDE_MODEL) 2048 system_prompt user_text with
      | Message content => first_text content
      | APIError message => Raise (HTTPException 502 (t "AI model error: " ++ message))
      | OtherError e => Raise e
      end
  end.

(** Lines 423-453: the vision call of the image branch, which catches
    [anthropic.APIError] only.  [create client model max_tokens media data]. *)
Definition vision_with_client (ANTHROPIC_API_KEY CLAUDE_MODEL : option text)
  (create : text -> text -> Z -> text -> list ascii -> api_reply)
  (media_type : text) (content : list ascii) : vision_outcome :=
  match get_client ANTHROPIC_API_KEY with
  | Raise (RuntimeError e) => VisionNoClient e
  | Raise e => VisionRaises e
  | Ok client =>
      match create client (default DEFAULT_MODEL CLAUDE_MODEL) 4096 media_type content with
      | Message blocks =>
          match first_text blocks with
          | Ok s => VisionText s
          | Raise e => VisionRaises e
          end
      | APIError message => VisionAPIError message
      | OtherError e => VisionRaises e
      end
  end.

(** Lines 468-470: the user message [parse_document] sends. *)
Definition user_message (text_ : text) (carrier_hint : option text) : text :=
  match carrier_hint with
  | Some h =>
      if nonempty h then t "[Carrier hint: " ++ h ++ t "]" ++ [nl; nl] ++ text_
      else text_
  | None => text_
  end.

(** ** Many callers of the rate limiter *)

(** Calls for any keys at any times, one after the other: the store left. *)
Fixpoint serve (RATE_LIMIT RATE_WINDOW : Z) (requests : list (string * Q))
  (rate_store : gmap string (list Q)) : gmap string (list Q) :=
  match requests with
  | [] => rate_store
  | (key, now) :: rest =>
      serve RATE_LIMIT RATE_WINDOW rest
        (fst (check_rate_limit RATE_LIMIT RATE_WINDOW now key rate_store))
  end.

(** The calls among [requests] that are let through, in order. *)
Fixpoint admitted (RATE_LIMIT RATE_WINDOW : Z) (requests : list (string * Q))
  (rate_store : gmap string (list Q)) : list (string * Q) :=
  match requests with
  | [] => []
  | (key, now) :: rest =>
      let '(store1, r) := check_rate_limit RATE_LIMIT RATE_WINDOW now key rate_store in
      match r with
      | Ok _ => [(key, now)]
      | Raise _ => []
      end ++ admitted RATE_LIMIT RATE_WINDOW rest store1
  end.

(** The clock does not run backwards over [times]. *)
Fixpoint ascending (times : list Q) : bool :=
  match times with
  | a :: (b :: _) as rest => Qle_bool a b && ascending rest
  | _ => true
  end.

(** The call [r] is for [key] and less than a window before [now]. *)
Definition in_window (RATE_WINDOW : Z) (key : string) (now : Q) (r : string * Q) : bool :=
  bool_decide (fst r = key) && live RATE_WINDOW now (snd r).

(** ** The endpoints *)

(** The validated body of a text route; only [BOLRequest] has a hint. *)
Record ParseRequest := {
  req_text : text;
  req_carrier_hint : option text
}.

Section Endpoints.

Variable json_loads : text -> result json.
Variable call_model : text -> text -> result text.
Variable str_to_float : string -> option Q.
Variable str_to_int : string -> option Z.
Variable RATE_LIMIT RATE_WINDOW : Z.
Variable SYSTEM_PROMPT : doc_kind -> text.

(** The hint a route hands to [parse_document]: the invoice and packing
    list routes hand none. *)
Definition route_hint (k : doc_kind) (carrier_hint : option text) : option text :=
  match k with
  | BillOfLading => carrier_hint
  | _ => None
  end.

(** Lines 522-540: the body of a text route, [auth] being what
    [verify_api_key] returned and [now] the clock [check_rate_limit] reads. *)
Definition parse_text (k : doc_kind) (req : ParseRequest) (auth : text) (now : Q)
  (rate_store : gmap string (list Q)) : gmap string (list Q) * result pyval :=
  let '(store1, admitted) :=
    check_rate_limit RATE_LIMIT RATE_WINDOW now (string_of_list_ascii auth) rate_store in
  (store1,
   bind admitted (fun _ =>
     parse_route json_loads call_model str_to_float str_to_int k (SYSTEM_PROMPT k)
       (req_text req) (route_hint k (req_carrier_hint req)))).

(** Lines 547-581: the body of an upload route. *)
Definition parse_upload (B : backend) (k : doc_kind) (file : UploadFile)
  (carrier_hint : option text) (auth : text) (now : Q)
  (rate_store : gmap string (list Q)) : gmap string (list Q) * result pyval :=
  let '(store1, admitted) :=
    check_rate_limit RATE_LIMIT RATE_WINDOW now (string_of_list_ascii auth) rate_store in
  (store1,
   bind admitted (fun _ =>
     bind (snd (extract_text_from_upload B file)) (fun text_ =>
       parse_route json_loads call_model str_to_float str_to_int k (SYSTEM_PROMPT k)
         text_ (route_hint k carrier_hint)))).

Definition parse_bol := parse_text BillOfLading.
Definition parse_freight_invoice := parse_text FreightInvoice.
Definition parse_packing_list := parse_text PackingList.

Definition parse_bol_upload (B : backend) := parse_upload B BillOfLading.
Definition parse_freight_invoice_upload (B : backend) (file : UploadFile) :=
  parse_upload B FreightInvoice file None.
Definition parse_packing_list_upload (B : backend) (file : UploadFile) :=
  parse_upload B PackingList file None.

(** [auth: str = Depends(verify_api_key)]: the body runs with what the
    dependency returns and does not run when it raises. *)
Definition with_auth {A : Type} (secret : text) (keys : gset text)
  (rapidapi_secret : option text) (request : option Request)
  (body : text -> Q -> gmap string (list Q) -> gmap string (list Q) * result A)
  (now : Q) (rate_store : gmap string (list Q)) : gmap string (list Q) * result A :=
  match verify_api_key secret keys rapidapi_secret request with
  | Ok auth => body auth now rate_store
  | Raise e => (rate_store, Raise e)
  end.

End Endpoints.

(** A backend that reads every payload as a one-page scan: no text on the
    page, and one table found on it whose only row has two empty cells. *)
Definition empty_table_backend : backend :=
  {| utf8_decode := fun content => content;
     pdf_open := fun _ =>
       inl [ {| page_text := None; page_tables := [ [ [None; None] ] ] |} ];
     vision := fun _ _ => VisionText [] |}.

(** ** Words for the properties below *)

(** Some opening brace of [s] has a closing brace after it. *)
Definition has_span (s : text) : Prop :=
  exists a b c, s = a ++ "{"%char :: b ++ "}"%char :: c.


(** * Part II: its properties *)

(** ** The reference JSON reader on samples *)

Example json_loads_object :
  JsonRef.json_loads (js "{'a': 1, 'b': [true, null, 'x\ny'], 'c': {'d': -2.50}}")
  = Ok (JObj [("a"%string, JInt 1);
              ("b"%string, JList [JBool true; JNull; JStr (String "x" (String nl "y"))]);
              ("c"%string, JObj [("d"%string, JFloat (-250 # 100))])]).
Proof. vm_compute. reflexivity. Qed.

Example json_loads_rejects_prose :
  JsonRef.json_loads (js "Here you go: {'a': 1}") = Raise JSONDecodeError.
Proof. vm_compute. reflexivity. Qed.

Example json_loads_rejects_trailing :
  JsonRef.json_loads (js "{'a': 1} thanks") = Raise JSONDecodeError.
Proof. vm_compute. reflexivity. Qed.

(** ** The response normalizer *)

(** *** Text lemmas *)

Lemma lstrip_app_stop a c b :
  is_space c = false -> lstrip (a ++ c :: b) = lstrip a ++ c :: b.
Proof.
  intros Hc. induction a as [|x a IH]; simpl.
  - by rewrite Hc.
  - destruct (is_space x); [exact IH | done].
Qed.

Lemma rstrip_app_stop a c b :
  is_space c = false -> rstrip (a ++ c :: b) = a ++ c :: rstrip b.
Proof.
  intros Hc. unfold rstrip.
  rewrite rev_app_distr. simpl. rewrite <- app_assoc. simpl.
  rewrite lstrip_app_stop by done.
  rewrite rev_app_distr. simpl. rewrite rev_involutive.
  by rewrite <- app_assoc.
Qed.

Lemma lstrip_suffix s : exists a, s = a ++ lstrip s.
Proof.
  induction s as [|x s [a IH]]; simpl.
  - by exists [].
  - destruct (is_space x).
    + exists (x :: a). simpl. by rewrite <- IH.
    + by exists [].
Qed.

Lemma lstrip_not_elem c s : c ∉ s -> c ∉ lstrip s.
Proof.
  intros H Hin. apply H. destruct (lstrip_suffix s) as [a Ha].
  rewrite Ha. apply elem_of_app. by right.
Qed.

Lemma not_elem_rev (c : ascii) s : c ∉ s -> c ∉ rev s.
Proof. intros H Hin. apply H. apply list_elem_of_In, in_rev, list_elem_of_In, Hin. Qed.

Lemma rstrip_not_elem c s : c ∉ s -> c ∉ rstrip s.
Proof. intros H. unfold rstrip. by apply not_elem_rev, lstrip_not_elem, not_elem_rev. Qed.

Lemma startswith_app p s : startswith p (p ++ s) = true.
Proof. induction p as [|a p IH]; simpl; [done|]. by rewrite Ascii.eqb_refl. Qed.

Lemma find_from_skip c pre rest i :
  c ∉ pre -> find_from c (pre ++ c :: rest) i = i + Z.of_nat (length pre).
Proof.
  revert i. induction pre as [|x pre IH]; intros i Hni; simpl.
  - rewrite Ascii.eqb_refl. lia.
  - apply not_elem_of_cons in Hni as [Hne Hni].
    destruct (Ascii.eqb_spec x c) as [->|_]; [done|].
    rewrite IH by done. lia.
Qed.

Lemma find_skip c pre rest :
  c ∉ pre -> find c (pre ++ c :: rest) = Z.of_nat (length pre).
Proof. intros H. unfold find. by rewrite find_from_skip. Qed.

Lemma find_from_absent c s i : c ∉ s -> find_from c s i = -1.
Proof.
  revert i. induction s as [|x s IH]; intros i Hni; simpl; [done|].
  apply not_elem_of_cons in Hni as [Hne Hni].
  destruct (Ascii.eqb_spec x c) as [->|_]; [done|]. by apply IH.
Qed.

Lemma rfind_skip c xs post :
  c ∉ post -> rfind c (xs ++ c :: post) = Z.of_nat (length xs).
Proof.
  intros H. unfold rfind.
  rewrite rev_app_distr. simpl. rewrite <- app_assoc. simpl.
  rewrite find_skip by by apply not_elem_rev.
  rewrite length_rev, length_app. simpl.
  destruct (Z.ltb_spec (Z.of_nat (length post)) 0); lia.
Qed.

Lemma slice_middle (a s b : text) :
  slice (a ++ s ++ b) (Z.of_nat (length a)) (Z.of_nat (length a + length s)) = s.
Proof.
  unfold slice. rewrite Nat2Z.id.
  replace (Z.to_nat _) with (length s) by lia.
  rewrite drop_app_length. by rewrite take_app_length.
Qed.

Lemma split_nonempty c s : split c s <> [].
Proof.
  induction s as [|x s IH]; simpl; [done|].
  destruct (Ascii.eqb x c); [done|]. by destruct (split c s).
Qed.

Lemma split_app c a b : split c (a ++ c :: b) = split c a ++ split c b.
Proof.
  induction a as [|x a IH]; simpl.
  - by rewrite Ascii.eqb_refl.
  - destruct (Ascii.eqb x c); [by rewrite IH|].
    rewrite IH. pose proof (split_nonempty c a). by destruct (split c a).
Qed.

Lemma split_absent c s : c ∉ s -> split c s = [s].
Proof.
  induction s as [|x s IH]; intros Hni; simpl; [done|].
  apply not_elem_of_cons in Hni as [Hne Hni].
  destruct (Ascii.eqb_spec x c) as [->|_]; [done|]. by rewrite IH.
Qed.

Lemma join_split c s : join [c] (split c s) = s.
Proof.
  induction s as [|x s IH]; simpl; [done|].
  destruct (Ascii.eqb_spec x c) as [->|_].
  - pose proof (split_nonempty c s). destruct (split c s) as [|l ls] eqn:E; [done|].
    change (join [c] ([] :: l :: ls)) with (c :: join [c] (l :: ls)). by rewrite IH.
  - pose proof (split_nonempty c s). destruct (split c s) as [|l ls] eqn:E; [done|].
    destruct ls; simpl in *; by rewrite <- IH.
Qed.

Lemma braced_inv s : braced s = true -> exists mid, s = "{"%char :: mid ++ ["}"%char].
Proof.
  destruct s as [|c r]; simpl; [done|].
  intros [Hc Hd]%andb_true_iff. apply Ascii.eqb_eq in Hc as ->.
  destruct (rev r) as [|d r'] eqn:E; [done|]. apply Ascii.eqb_eq in Hd as ->.
  exists (rev r'). rewrite <- (rev_involutive r), E. simpl. done.
Qed.

Lemma lstrip_head c s : is_space c = false -> lstrip (c :: s) = c :: s.
Proof. simpl. by intros ->. Qed.

Lemma rstrip_last s c : is_space c = false -> rstrip (s ++ [c]) = s ++ [c].
Proof. intros H. by rewrite rstrip_app_stop. Qed.

Lemma strip_braced s : braced s = true -> strip s = s.
Proof.
  intros [mid ->]%braced_inv. unfold strip.
  rewrite lstrip_head by done. rewrite app_comm_cons. by rewrite rstrip_last.
Qed.

Lemma strip_embedded pre mid post :
  strip (pre ++ ("{"%char :: mid ++ ["}"%char]) ++ post)
  = lstrip pre ++ ("{"%char :: mid ++ ["}"%char]) ++ rstrip post.
Proof.
  unfold strip. rewrite <- app_comm_cons. rewrite lstrip_app_stop by done.
  rewrite <- (app_assoc mid). simpl ([_] ++ _).
  rewrite app_comm_cons, app_assoc.
  rewrite rstrip_app_stop by done.
  by rewrite <- app_assoc, <- !app_comm_cons, <- (app_assoc mid).
Qed.

Lemma fence_unfold : fence = [ "`"; "`"; "`" ]%char.
Proof. reflexivity. Qed.

Lemma lstrip_fence x : lstrip (fence ++ x) = fence ++ x.
Proof. rewrite fence_unfold. rewrite <- !app_comm_cons. by rewrite lstrip_head. Qed.

Lemma rstrip_fence x : rstrip (x ++ fence) = x ++ fence.
Proof.
  rewrite fence_unfold.
  change [ "`"; "`"; "`" ]%char with ([ "`"; "`" ]%char ++ [ "`"%char ]).
  rewrite app_assoc. by rewrite rstrip_last.
Qed.

Lemma strip_fenced lang s : strip (fenced lang s) = fenced lang s.
Proof.
  unfold fenced, strip. rewrite lstrip_fence. rewrite !app_assoc.
  by rewrite rstrip_fence.
Qed.

Lemma strip_fence_line lang : startswith fence (strip (fence ++ lang)) = true.
Proof.
  unfold strip. rewrite lstrip_fence. rewrite fence_unfold.
  change ([ "`"; "`"; "`" ]%char ++ lang) with ([ "`"; "`" ]%char ++ "`"%char :: lang).
  rewrite rstrip_app_stop by done. reflexivity.
Qed.

Lemma filter_all {A} (f : A -> bool) l : forallb f l = true -> List.filter f l = l.
Proof.
  induction l as [|x l IH]; simpl; [done|].
  intros [Hx Hl]%andb_true_iff. rewrite Hx. by rewrite IH.
Qed.

Lemma nl_not_in_fence : nl ∉ fence.
Proof. apply (bool_decide_unpack _). vm_compute. exact I. Qed.

Lemma strip_fences_fenced lang s :
  nl ∉ lang -> no_fence_line s = true -> strip_fences (fenced lang s) = s.
Proof.
  intros Hlang Hs. unfold strip_fences.
  assert (startswith fence (fenced lang s) = true) as -> by apply startswith_app.
  unfold fenced. rewrite app_assoc. simpl ([nl] ++ _).
  rewrite split_app. rewrite (split_app nl s fence).
  rewrite (split_absent nl (fence ++ lang)).
  2:{ intros [H|H]%elem_of_app; [by apply nl_not_in_fence|done]. }
  rewrite (split_absent nl fence) by apply nl_not_in_fence.
  rewrite !List.filter_app.
  replace (List.filter _ [fence ++ lang]) with (@nil text).
  2:{ unfold List.filter. by rewrite strip_fence_line. }
  rewrite (filter_all _ (split nl s)) by exact Hs.
  replace (List.filter _ [fence]) with (@nil text) by (vm_compute; reflexivity).
  rewrite app_nil_r. simpl. apply join_split.
Qed.

Lemma braced_not_fence s : braced s = true -> startswith fence s = false.
Proof.
  destruct s as [|c r]; simpl; [done|].
  intros [Hc _]%andb_true_iff. by apply Ascii.eqb_eq in Hc as ->.
Qed.

Lemma elem_join c line sep parts : line ∈ parts -> c ∈ line -> c ∈ join sep parts.
Proof.
  intros Hline Hc. induction Hline as [line ps|line p ps Hline IH].
  - destruct ps as [|q ps]; simpl; [done|]. apply elem_of_app. by left.
  - destruct ps as [|q ps]; [by apply elem_of_nil in Hline|].
    change (join sep (p :: q :: ps)) with (p ++ sep ++ join sep (q :: ps)).
    apply elem_of_app. right. apply elem_of_app. right. auto.
Qed.

(** *** Lines, split and joined *)

Lemma join_cons sep (z : text) (Z : list text) :
  join sep (z :: Z) = z ++ concat (map (app sep) Z).
Proof.
  revert z. induction Z as [|y Z IH]; intros z.
  - simpl. by rewrite app_nil_r.
  - change (join sep (z :: y :: Z)) with (z ++ sep ++ join sep (y :: Z)).
    rewrite IH. simpl. by rewrite <- app_assoc.
Qed.

Lemma elem_join_inv c sep (L : list text) :
  c ∈ join sep L -> c ∈ sep \/ exists l, l ∈ L /\ c ∈ l.
Proof.
  destruct L as [|z Z]; [by intros ?%elem_of_nil|].
  rewrite join_cons. intros [Hz|Hrest]%elem_of_app.
  - right. exists z. split; [by left|done].
  - apply list_elem_of_In, in_concat in Hrest as (x & Hx & Hc).
    apply in_map_iff in Hx as (l & <- & Hl).
    apply list_elem_of_In, elem_of_app in Hc as [Hc|Hc]; [by left|].
    right. exists l. split; [right; by apply list_elem_of_In|done].
Qed.

Lemma split_join_lines c (L : list text) :
  L <> [] -> Forall (fun l => c ∉ l) L -> split c (join [c] L) = L.
Proof.
  induction L as [|l [|l2 L] IH]; intros Hne Hfree; [done|..].
  - simpl. apply split_absent. by apply Forall_inv in Hfree.
  - change (join [c] (l :: l2 :: L)) with (l ++ c :: join [c] (l2 :: L)).
    rewrite split_app, split_absent by by apply Forall_inv in Hfree.
    rewrite IH; [done|done|by apply Forall_inv_tail in Hfree].
Qed.

Lemma split_after_lines c (LA : list text) (a2 y : text) :
  Forall (fun l => c ∉ l) LA ->
  split c (join [c] (LA ++ [a2]) ++ y) = LA ++ split c (a2 ++ y).
Proof.
  induction LA as [|l LA IH]; intros Hfree; [done|].
  assert (join [c] ((l :: LA) ++ [a2]) = l ++ c :: join [c] (LA ++ [a2])) as ->.
  { simpl. by destruct (LA ++ [a2]) eqn:E; [destruct LA|]. }
  rewrite <- app_assoc. simpl. rewrite split_app.
  rewrite split_absent by by apply Forall_inv in Hfree.
  rewrite IH by by apply Forall_inv_tail in Hfree. done.
Qed.

Lemma split_before_lines c (x b1 : text) (LB : list text) :
  Forall (fun l => c ∉ l) LB ->
  split c (x ++ join [c] (b1 :: LB)) = split c (x ++ b1) ++ LB.
Proof.
  intros Hfree. destruct LB as [|l LB].
  - simpl. by rewrite app_nil_r.
  - change (join [c] (b1 :: l :: LB)) with (b1 ++ c :: join [c] (l :: LB)).
    rewrite app_assoc, split_app. by rewrite split_join_lines.
Qed.

Lemma split_pieces_free c s p : p ∈ split c s -> c ∉ p.
Proof.
  revert p. induction s as [|x s IH]; intros p; simpl.
  - intros ->%list_elem_of_singleton. apply not_elem_of_nil.
  - destruct (Ascii.eqb_spec x c) as [->|Hne].
    + intros [->|Hin]%elem_of_cons; [apply not_elem_of_nil|by apply IH].
    + pose proof (split_nonempty c s) as Hnil.
      destruct (split c s) as [|l ls]; [done|].
      intros [->|Hin]%elem_of_cons.
      * apply not_elem_of_cons. split; [done|]. apply IH. by left.
      * apply IH. by right.
Qed.

Lemma split_last_line s : exists LA, split nl s = LA ++ [last_line s].
Proof.
  unfold last_line. pose proof (split_nonempty nl s) as Hne.
  destruct (exists_last Hne) as (LA & a2 & ->). exists LA. by rewrite last_last.
Qed.

Lemma split_first_line s : exists LB, split nl s = first_line s :: LB.
Proof.
  unfold first_line. pose proof (split_nonempty nl s) as Hne.
  destruct (split nl s) as [|b1 LB]; [done|]. by exists LB.
Qed.

(** The lines of a text in three parts: those before the last line of the
    first part, those that the middle part touches, and those after the
    first line of the last part. *)
Lemma split_around a m b :
  exists LA LB,
    split nl a = LA ++ [last_line a] /\ split nl b = first_line b :: LB
    /\ split nl (a ++ m ++ b) = LA ++ split nl (last_line a ++ m ++ first_line b) ++ LB.
Proof.
  destruct (split_last_line a) as [LA Ha], (split_first_line b) as [LB Hb].
  exists LA, LB. split; [done|]. split; [done|].
  assert (Forall (fun l => nl ∉ l) LA) as HLA.
  { apply Forall_forall. intros l Hl. apply (split_pieces_free nl a).
    rewrite Ha. apply elem_of_app. by left. }
  assert (Forall (fun l => nl ∉ l) LB) as HLB.
  { apply Forall_forall. intros l Hl. apply (split_pieces_free nl b).
    rewrite Hb. by right. }
  rewrite <- (join_split nl a) at 1. rewrite Ha, split_after_lines by done.
  f_equal. rewrite <- (join_split nl b) at 1. rewrite Hb.
  rewrite !app_assoc. rewrite split_before_lines by done. done.
Qed.

Lemma elem_of_line c l s : l ∈ split nl s -> c ∈ l -> c ∈ s.
Proof. intros Hl Hc. rewrite <- (join_split nl s). by eapply elem_join. Qed.

(** Dropping lines of a text in three parts, none of them among the lines
    that the middle part touches, leaves the middle part where it was,
    between texts that hold no character the outer parts did not hold. *)
Lemma filter_lines_around (f : text -> bool) a m b :
  forallb f (split nl (last_line a ++ m ++ first_line b)) = true ->
  exists P Q,
    join [nl] (List.filter f (split nl (a ++ m ++ b))) = P ++ m ++ Q
    /\ (forall c, c ∈ P -> c = nl \/ c ∈ a)
    /\ (forall c, c ∈ Q -> c = nl \/ c ∈ b).
Proof.
  intros Hkeep. destruct (split_around a m b) as (LA & LB & Ha & Hb & ->).
  rewrite !List.filter_app, (filter_all f _ Hkeep).
  set (KA := List.filter f LA). set (KB := List.filter f LB).
  set (a2 := last_line a) in *. set (b1 := first_line b) in *.
  assert (forall l, l ∈ KA -> l ∈ split nl a) as HKA.
  { intros l Hl. apply list_elem_of_In, filter_In in Hl as [Hl _].
    rewrite Ha. apply elem_of_app. left. by apply list_elem_of_In. }
  assert (forall l, l ∈ KB -> l ∈ split nl b) as HKB.
  { intros l Hl. apply list_elem_of_In, filter_In in Hl as [Hl _].
    rewrite Hb. right. by apply list_elem_of_In. }
  assert (a2 ∈ split nl a) as Ha2 by (rewrite Ha; apply elem_of_app; right; by left).
  assert (b1 ∈ split nl b) as Hb1 by (rewrite Hb; by left).
  pose proof (split_nonempty nl (a2 ++ m ++ b1)) as Hne.
  destruct (split nl (a2 ++ m ++ b1)) as [|y Y] eqn:EM; [done|].
  assert (a2 ++ m ++ b1 = y ++ concat (map (app [nl]) Y)) as HM.
  { by rewrite <- (join_split nl (a2 ++ m ++ b1)), EM, join_cons. }
  exists (match KA with
          | [] => []
          | z :: Z => z ++ concat (map (app [nl]) Z) ++ [nl]
          end ++ a2),
         (b1 ++ concat (map (app [nl]) KB)).
  assert (forall T, a2 ++ m ++ b1 ++ T = y ++ concat (map (app [nl]) Y) ++ T) as HM'.
  { intros T. rewrite (app_assoc y), <- HM. by rewrite <- !app_assoc. }
  clearbody KA KB.
  split; [|split].
  - destruct KA as [|z Z].
    + change ([] ++ (y :: Y) ++ KB) with (y :: (Y ++ KB)).
      rewrite join_cons, map_app, concat_app. cbn [app]. by rewrite HM'.
    + change ((z :: Z) ++ (y :: Y) ++ KB) with (z :: (Z ++ (y :: Y) ++ KB)).
      rewrite join_cons, !map_app, !concat_app. cbn [map concat].
      rewrite <- !app_assoc. by rewrite HM'.
  - intros c [Hc|Hc]%elem_of_app; [|right; by eapply elem_of_line].
    destruct KA as [|z Z]; [by apply elem_of_nil in Hc|].
    rewrite app_assoc, <- join_cons in Hc.
    apply elem_of_app in Hc as [Hc|Hc]; [|left; by apply list_elem_of_singleton in Hc].
    apply elem_join_inv in Hc as [Hc|(l & Hl & Hc)];
      [left; by apply list_elem_of_singleton in Hc|].
    right. eapply elem_of_line; [by apply HKA|done].
  - intros c [Hc|Hc]%elem_of_app; [right; by eapply elem_of_line|].
    apply list_elem_of_In, in_concat in Hc as (x & Hx & Hc).
    apply in_map_iff in Hx as (l & <- & Hl).
    apply list_elem_of_In, elem_of_app in Hc as [Hc|Hc];
      [left; by apply list_elem_of_singleton in Hc|].
    right. eapply elem_of_line; [apply HKB; by apply list_elem_of_In|done].
Qed.

Section NormalizerFacts.

Variable json_loads : text -> result json.

Lemma normalize_bare s J :
  json_loads s = Ok J -> braced s = true -> normalize_reply json_loads s = Ok J.
Proof.
  intros HJ Hb. unfold normalize_reply. rewrite strip_braced by done.
  unfold strip_fences. rewrite braced_not_fence by done. by rewrite HJ.
Qed.

Lemma normalize_fenced lang s J :
  json_loads s = Ok J -> nl ∉ lang -> no_fence_line s = true ->
  normalize_reply json_loads (fenced lang s) = Ok J.
Proof.
  intros HJ Hlang Hs. unfold normalize_reply.
  rewrite strip_fenced, strip_fences_fenced by done. by rewrite HJ.
Qed.

(** The brace search finds the object when the cleaned reply holds it
    with no opening brace before it and no closing brace after it. *)
Lemma normalize_span raw P s Q J :
  strip_fences (strip raw) = P ++ s ++ Q ->
  json_loads s = Ok J -> braced s = true ->
  "{"%char ∉ P -> "}"%char ∉ Q ->
  json_loads (P ++ s ++ Q) = Ok J \/ json_loads (P ++ s ++ Q) = Raise JSONDecodeError ->
  normalize_reply json_loads raw = Ok J.
Proof.
  intros Hclean HJ Hb HP HQ Hdirect. unfold normalize_reply. rewrite Hclean.
  destruct Hdirect as [->| ->]; [done|].
  destruct (braced_inv s Hb) as [mid Hs]. rewrite Hs.
  assert (find "{" (P ++ ("{"%char :: mid ++ ["}"%char]) ++ Q) = Z.of_nat (length P)) as ->.
  { rewrite <- app_comm_cons. by apply find_skip. }
  assert (rfind "}" (P ++ ("{"%char :: mid ++ ["}"%char]) ++ Q)
          = Z.of_nat (length P + length mid + 1)) as ->.
  { replace (P ++ ("{"%char :: mid ++ ["}"%char]) ++ Q)
      with ((P ++ "{"%char :: mid) ++ "}"%char :: Q).
    - rewrite rfind_skip by done. rewrite length_app. simpl. f_equal. lia.
    - rewrite <- !app_assoc. simpl. by rewrite <- app_assoc. }
  replace (0 <=? Z.of_nat (length P)) with true by (symmetry; apply Z.leb_le; lia).
  replace (Z.of_nat (length P) <? Z.of_nat (length P + length mid + 1) + 1) with true
    by (symmetry; apply Z.ltb_lt; lia).
  simpl andb. cbv iota.
  replace (Z.of_nat (length P + length mid + 1) + 1)
    with (Z.of_nat (length P + length ("{"%char :: mid ++ ["}"%char])))
    by (simpl; rewrite length_app; simpl; lia).
  by rewrite slice_middle, <- Hs.
Qed.

Lemma normalize_embedded pre s post J :
  json_loads s = Ok J -> braced s = true ->
  "{"%char ∉ pre -> "}"%char ∉ post ->
  (startswith fence (strip (pre ++ s ++ post)) = true ->
   no_fence_line (last_line (lstrip pre) ++ s ++ first_line (rstrip post)) = true) ->
  (let cleaned := strip_fences (strip (pre ++ s ++ post)) in
   json_loads cleaned = Ok J \/ json_loads cleaned = Raise JSONDecodeError) ->
  normalize_reply json_loads (pre ++ s ++ post) = Ok J.
Proof.
  intros HJ Hb Hpre Hpost Hfence Hdirect. cbv zeta in Hdirect.
  assert (strip (pre ++ s ++ post) = lstrip pre ++ s ++ rstrip post) as Hstrip.
  { destruct (braced_inv s Hb) as [mid ->]. apply strip_embedded. }
  rewrite Hstrip in Hfence, Hdirect.
  set (a := lstrip pre) in *. set (b := rstrip post) in *.
  assert ("{"%char ∉ a) as Ha by by apply lstrip_not_elem.
  assert ("}"%char ∉ b) as Hb' by by apply rstrip_not_elem.
  destruct (startswith fence (a ++ s ++ b)) eqn:E.
  - specialize (Hfence eq_refl).
    destruct (filter_lines_around (fun l => negb (startswith fence (strip l))) a s b Hfence)
      as (P & Q & Hjoin & HP & HQ).
    assert (strip_fences (strip (pre ++ s ++ post)) = P ++ s ++ Q) as Hclean.
    { rewrite Hstrip. unfold strip_fences. fold a b. by rewrite E. }
    unfold strip_fences in Hdirect. rewrite E, Hjoin in Hdirect.
    apply (normalize_span _ P s Q); try done.
    + intros [Hc|Hc]%HP; [discriminate Hc|done].
    + intros [Hc|Hc]%HQ; [discriminate Hc|done].
  - assert (strip_fences (strip (pre ++ s ++ post)) = a ++ s ++ b) as Hclean.
    { rewrite Hstrip. unfold strip_fences. fold a b. by rewrite E. }
    unfold strip_fences in Hdirect. rewrite E in Hdirect.
    by apply (normalize_span _ a s b).
Qed.

End NormalizerFacts.

(** *** What the normalizer does with a reply that holds no JSON *)

Section NormalizerFailure.

Variable json_loads : text -> result json.

(** Without a brace pair the request fails with the 502 of [PARSE_FAILURE]. *)
Lemma normalize_no_braces raw :
  let cleaned := strip_fences (strip raw) in
  json_loads cleaned = Raise JSONDecodeError ->
  (find "{" cleaned <? 0) || (rfind "}" cleaned + 1 <=? find "{" cleaned) = true ->
  normalize_reply json_loads raw = Raise PARSE_FAILURE.
Proof.
  intros cleaned Hd Hspan. unfold normalize_reply. fold cleaned. rewrite Hd.
  destruct (Z.leb_spec 0 (find "{" cleaned)), (Z.ltb_spec (find "{" cleaned) (rfind "}" cleaned + 1));
    simpl; try done.
  apply orb_true_iff in Hspan as [Hs|Hs]; [apply Z.ltb_lt in Hs|apply Z.leb_le in Hs]; lia.
Qed.

(** With a brace pair whose content does not parse, the second
    [json.loads] raises and nothing catches it. *)
Lemma normalize_bad_span raw :
  let cleaned := strip_fences (strip raw) in
  json_loads cleaned = Raise JSONDecodeError ->
  0 <= find "{" cleaned < rfind "}" cleaned + 1 ->
  json_loads (slice cleaned (find "{" cleaned) (rfind "}" cleaned + 1)) = Raise JSONDecodeError ->
  normalize_reply json_loads raw = Raise JSONDecodeError.
Proof.
  intros cleaned Hd [H0 H1] Hs. unfold normalize_reply. fold cleaned. rewrite Hd.
  apply Z.leb_le in H0. apply Z.ltb_lt in H1. rewrite H0, H1. simpl. by rewrite Hs.
Qed.

End NormalizerFailure.

(** C1.  A reply with a brace pair around text that is not JSON, here
    [{not json}], makes [parse_document] raise [json.JSONDecodeError]
    instead of the 502 service error: the retry on the brace span sits
    inside the [except] block with no handler of its own. *)
Theorem parse_document_leaks_decode_error :
  forall (system_prompt text_ : text) (carrier_hint : option text),
    parse_document JsonRef.json_loads (fun _ _ => Ok (t "{not json}"))
      system_prompt text_ carrier_hint
    = Raise JSONDecodeError
    /\ Raise (A := json) JSONDecodeError <> Raise PARSE_FAILURE.
Proof.
  intros system_prompt text_ carrier_hint. split; [|discriminate].
  unfold parse_document. cbn [bind].
  apply normalize_bad_span.
  - vm_compute. reflexivity.
  - split; [apply Z.leb_le|apply Z.ltb_lt]; vm_compute; reflexivity.
  - vm_compute. reflexivity.
Qed.

(** C2 (as amended).  The text [s] of a JSON object [J] is normalized to
    [J] when it comes bare, when it comes between fences that stand on
    lines of their own, and when it comes inside prose with no opening
    brace before it and no closing brace after it, as long as, when the
    trimmed reply starts with a fence, no line that holds a part of the
    object starts with one, and the cleaned reply is not itself a JSON
    document other than [J] nor one on which [json.loads] raises anything
    but [json.JSONDecodeError]. *)
Theorem normalizer_recovers_same_object :
  forall (json_loads : text -> result json) (ms : list (string * json))
         (s lang pre post : text),
    json_loads s = Ok (JObj ms) ->
    braced s = true ->
    no_fence_line s = true ->
    nl ∉ lang ->
    "{"%char ∉ pre ->
    "}"%char ∉ post ->
    (startswith fence (strip (pre ++ s ++ post)) = true ->
     no_fence_line (last_line (lstrip pre) ++ s ++ first_line (rstrip post)) = true) ->
    (let cleaned := strip_fences (strip (pre ++ s ++ post)) in
     json_loads cleaned = Ok (JObj ms) \/ json_loads cleaned = Raise JSONDecodeError) ->
    normalize_reply json_loads s = Ok (JObj ms)
    /\ normalize_reply json_loads (fenced lang s) = Ok (JObj ms)
    /\ normalize_reply json_loads (pre ++ s ++ post) = Ok (JObj ms).
Proof.
  intros json_loads ms s lang pre post HJ Hb Hnf Hlang Hpre Hpost Hfence Hdirect.
  split; [|split].
  - by apply normalize_bare.
  - by apply normalize_fenced.
  - by apply normalize_embedded.
Qed.

Lemma normalizer_recovers_same_object_witness :
  let J := JObj [("bol_number"%string, JStr "MEDU4712839"); ("confidence"%string, JFloat (9 # 10))] in
  let s := js "{'bol_number': 'MEDU4712839', 'confidence': 0.9}" in
  normalize_reply JsonRef.json_loads s = Ok J
  /\ normalize_reply JsonRef.json_loads (fenced (t "json") s) = Ok J
  /\ normalize_reply JsonRef.json_loads
       ((fence ++ [nl] ++ t "Here is the parsed document: ") ++ s
        ++ ([nl] ++ fence ++ [nl] ++ t "Let me know if it helps.")) = Ok J.
Proof.
  apply (normalizer_recovers_same_object JsonRef.json_loads).
  - vm_compute. reflexivity.
  - reflexivity.
  - vm_compute. reflexivity.
  - apply (bool_decide_unpack _). vm_compute. exact I.
  - apply (bool_decide_unpack _). vm_compute. exact I.
  - apply (bool_decide_unpack _). vm_compute. exact I.
  - intros _. vm_compute. reflexivity.
  - right. vm_compute. reflexivity.
Defined.

(** C2 fails as stated: with the fences on the same line as the object, the
    text before the object holds no opening brace and the text after it no
    closing brace, yet the fence filter drops the only line and the request
    ends in the 502 of [PARSE_FAILURE]. *)
Lemma inline_fence_loses_object :
  let J := JObj [("a"%string, JInt 1)] in
  let s := js "{'a': 1}" in
  let pre := t "```json " in
  let post := t " ```" in
  JsonRef.json_loads s = Ok J
  /\ bool_decide ("{"%char ∉ pre) = true
  /\ bool_decide ("}"%char ∉ post) = true
  /\ normalize_reply JsonRef.json_loads s = Ok J
  /\ normalize_reply JsonRef.json_loads (pre ++ s ++ post) = Raise PARSE_FAILURE.
Proof. vm_compute. repeat split; reflexivity. Qed.

(** A second way out of C2: brackets around the object make the whole
    reply a JSON document of its own, a list, and the direct parse wins. *)
Example bracketed_object_parses_as_list :
  normalize_reply JsonRef.json_loads (js "[{'a': 1}]") = Ok (JList [JObj [("a"%string, JInt 1)]]).
Proof. vm_compute. reflexivity. Qed.

(** A third way out: prose on which the reader gives up with an exception
    that is not [json.JSONDecodeError], as [json.loads] does with
    [RecursionError] on deep nesting; the brace search is never reached. *)
Example uncaught_exception_hides_object :
  let loads := fun s : text =>
    if startswith (js "[[[[") s then Raise RecursionError else JsonRef.json_loads s in
  loads (js "{'a': 1}") = Ok (JObj [("a"%string, JInt 1)])
  /\ normalize_reply loads (js "[[[[ see: {'a': 1}") = Raise RecursionError.
Proof. vm_compute. split; reflexivity. Qed.

(** The fence filter takes whole lines only: a reply that starts with a
    fence keeps an object that stands on a line of prose, and one that is
    followed by a remark after the closing fence. *)
Example fenced_with_prose_keeps_object :
  normalize_reply JsonRef.json_loads
    (fence ++ [nl] ++ js "Here: {'a': 1}" ++ [nl] ++ fence)
  = Ok (JObj [("a"%string, JInt 1)])
  /\ normalize_reply JsonRef.json_loads
       (fenced (t "json") (js "{'a': 1}") ++ [nl] ++ t "That is the document.")
     = Ok (JObj [("a"%string, JInt 1)]).
Proof. vm_compute. split; reflexivity. Qed.

(** ** Schema binding *)

(** *** Validation lemmas *)

(** Induction on an annotated type that reaches the types of the fields
    of a model. *)
Lemma ftype_ind_deep (P : ftype -> Prop) :
  P TStr -> P TInt -> P TFloat -> P TDict ->
  (forall ty, P ty -> P (TOptional ty)) ->
  (forall ty, P ty -> P (TList ty)) ->
  (forall fs, Forall (fun f : field => P (fst (snd f))) fs -> P (TModel fs)) ->
  forall ty, P ty.
Proof.
  intros Hs Hi Hf Hd Ho Hl Hm. fix IH 1. intros [| | | |ty|ty|fs].
  - exact Hs.
  - exact Hi.
  - exact Hf.
  - exact Hd.
  - apply Ho, IH.
  - apply Hl, IH.
  - apply Hm. induction fs as [|[n [ty dflt]] fs IHfs]; constructor; [apply IH|exact IHfs].
Qed.

(** Integers up to [2^53] in magnitude are doubles. *)
Lemma float_of_int_exact n : Z.abs n <= 2 ^ 53 -> float_of_int n = Some (inject_Z n).
Proof.
  intros Hn. unfold float_of_int.
  destruct (Z.leb_spec (Z.log2 (Z.abs n) + 1 - 53) 0) as [|Hbig]; [done|].
  assert (2 ^ 53 <= Z.abs n) as Hlow.
  { destruct (Z.lt_ge_cases (Z.abs n) (2 ^ 53)) as [Hlt|]; [|done].
    destruct (Z.eq_dec (Z.abs n) 0) as [H0|H0]; [rewrite H0 in Hbig; simpl in Hbig; lia|].
    apply Z.log2_lt_pow2 in Hlt; lia. }
  change (2 ^ 53) with 9007199254740992 in *.
  assert (n = 9007199254740992 \/ n = - 9007199254740992) as [->| ->] by lia;
    vm_compute; reflexivity.
Qed.

Lemma all_or_nothing_none {A B} (f : A -> option B) l x :
  x ∈ l -> f x = None -> all_or_nothing f l = None.
Proof.
  intros Hin Hx. induction l as [|y l IH]; [by apply elem_of_nil in Hin|].
  apply elem_of_cons in Hin as [<-|Hin]; simpl.
  - by rewrite Hx.
  - destruct (f y); [|done]. by rewrite IH.
Qed.

Lemma all_or_nothing_none_inv {A B} (f : A -> option B) l :
  all_or_nothing f l = None -> exists x, x ∈ l /\ f x = None.
Proof.
  induction l as [|y l IH]; simpl; [done|].
  destruct (f y) eqn:E.
  - destruct (all_or_nothing f l); [done|]. intros _.
    destruct IH as (x & Hin & Hx); [done|]. exists x. split; [by right|done].
  - intros _. exists y. split; [by left|done].
Qed.

Lemma all_or_nothing_some {A B} (f : A -> option B) l ys :
  all_or_nothing f l = Some ys -> Forall2 (fun x y => f x = Some y) l ys.
Proof.
  revert ys. induction l as [|x l IH]; simpl; intros ys H.
  - injection H as <-. constructor.
  - destruct (f x) eqn:E; [|done].
    destruct (all_or_nothing f l); [|done]. injection H as <-.
    constructor; [done|]. by apply IH.
Qed.

Section ValidationFacts.

Variable str_to_float : string -> option Q.
Variable str_to_int : string -> option Z.

Abbreviation validate := (validate str_to_float str_to_int).
Abbreviation field_value := (field_value str_to_float str_to_int).
Abbreviation bind_fields := (bind_fields str_to_float str_to_int).
Abbreviation construct := (construct str_to_float str_to_int).

Lemma validate_model d fs :
  validate (TModel fs) (JObj d) = option_map VModel (bind_fields d fs).
Proof.
  simpl. f_equal. induction fs as [|[n [ty dflt]] fs IH]; [done|].
  unfold bind_fields. simpl. unfold field_value at 1. simpl.
  rewrite IH. unfold bind_fields.
  destruct (dict_get n d) as [x|]; [destruct (validate ty x)|destruct dflt]; done.
Qed.

Lemma construct_ok_iff model d r :
  construct model (JObj d) = Ok r <->
  exists attrs, bind_fields d model = Some attrs /\ r = VModel attrs.
Proof.
  unfold construct. rewrite validate_model.
  destruct (bind_fields d model) as [attrs|]; simpl; split.
  - intros [= <-]. by exists attrs.
  - intros (a & [= <-] & ->). done.
  - done.
  - by intros (a & H & _).
Qed.

Lemma construct_raise model d e :
  construct model (JObj d) = Raise e ->
  e = ValidationError /\ bind_fields d model = None.
Proof.
  unfold construct. rewrite validate_model.
  destruct (bind_fields d model); simpl; [done|]. by intros [= <-].
Qed.

(** Binding fails only on a declared field whose value is refused. *)
Lemma bind_fields_none d fs :
  bind_fields d fs = None -> exists f, f ∈ fs /\ field_value d f = None.
Proof.
  intros (f & Hin & Hf)%all_or_nothing_none_inv. exists f. split; [done|].
  by destruct (field_value d f).
Qed.

Lemma bind_fields_refused d fs f :
  f ∈ fs -> field_value d f = None -> bind_fields d fs = None.
Proof.
  intros Hin Hf. apply (all_or_nothing_none _ _ f); [done|]. by rewrite Hf.
Qed.

(** A bound model has every declared field, in declaration order. *)
Lemma bind_fields_names d fs attrs :
  bind_fields d fs = Some attrs -> map fst attrs = map fst fs.
Proof.
  intros H%all_or_nothing_some. induction H as [|f [n v] fs attrs Hf _ IH]; [done|].
  simpl. rewrite IH. f_equal. destruct (field_value d f); simpl in Hf; [|done].
  by injection Hf as <- _.
Qed.

Lemma bind_fields_attr d fs attrs f :
  bind_fields d fs = Some attrs -> NoDup (map fst fs) -> f ∈ fs ->
  assoc (fst f) attrs = field_value d f.
Proof.
  intros H%all_or_nothing_some. induction H as [|g [n v] fs attrs Hg _ IH]; intros Hnd Hin.
  - by apply elem_of_nil in Hin.
  - simpl in Hnd. apply NoDup_cons in Hnd as [Hfresh Hnd].
    destruct (field_value d g) as [w|] eqn:E; simpl in Hg; [|done].
    injection Hg as <- <-.
    apply elem_of_cons in Hin as [->|Hin]; simpl.
    + by rewrite String.eqb_refl.
    + destruct (String.eqb_spec (fst f) (fst g)) as [Heq|_]; [|by apply IH].
      exfalso. apply Hfresh. rewrite <- Heq. by apply list_elem_of_fmap_2.
Qed.

End ValidationFacts.

Section WrongShapeFacts.

Variable str_to_float : string -> option Q.
Variable str_to_int : string -> option Z.

Abbreviation validate := (validate str_to_float str_to_int).
Abbreviation field_value := (field_value str_to_float str_to_int).
Abbreviation bind_fields := (bind_fields str_to_float str_to_int).
Abbreviation wrong_shape := (wrong_shape str_to_float str_to_int).

(** The validator refuses every wrong shape. *)
Lemma wrong_shape_refused ty j : wrong_shape ty j -> validate ty j = None.
Proof.
  induction 1 as [j H|j H|s H|n H|j H|s H|x H|j H|ty j Hn _ IH|ty j H
                 |ty items x Hin _ IH|fs j H|fs d n ty dflt x Hin Hget _ IH
                 |fs d n ty Hin Hget].
  - by destruct j.
  - by destruct j.
  - simpl. by rewrite H.
  - simpl. by rewrite H.
  - by destruct j.
  - simpl. by rewrite H.
  - simpl. by rewrite H.
  - by destruct j.
  - destruct j; done.
  - by destruct j.
  - simpl. by rewrite (all_or_nothing_none _ _ x).
  - by destruct j.
  - rewrite validate_model.
    rewrite (bind_fields_refused _ _ d fs (n, (ty, dflt))); [done..|].
    unfold field_value. simpl. by rewrite Hget.
  - rewrite validate_model.
    rewrite (bind_fields_refused _ _ d fs (n, (ty, Required))); [done..|].
    unfold field_value. simpl. by rewrite Hget.
Qed.

(** And it refuses nothing else: a value that is refused has a wrong
    shape. *)
Lemma refused_is_wrong_shape ty : forall j, validate ty j = None -> wrong_shape ty j.
Proof.
  induction ty as [| | | |ty IH|ty IH|fs IH] using ftype_ind_deep; intros j H.
  - destruct j; try done; by apply ws_str.
  - destruct j as [|b|n|x|s|items|d]; simpl in H; try done.
    + by apply ws_int_compound.
    + apply ws_int_float. by destruct (int_of_float x).
    + apply ws_int_text. by destruct (str_to_int s).
    + by apply ws_int_compound.
    + by apply ws_int_compound.
  - destruct j as [|b|n|x|s|items|d]; simpl in H; try done.
    + by apply ws_float_compound.
    + apply ws_float_overflow. by destruct (float_of_int n).
    + apply ws_float_text. by destruct (str_to_float s).
    + by apply ws_float_compound.
    + by apply ws_float_compound.
  - destruct j; try done; by apply ws_dict.
  - destruct j; try done; (apply ws_optional; [done|by apply IH]).
  - destruct j as [| | | | |items|]; try (by apply ws_list).
    simpl in H. destruct (all_or_nothing (validate ty) items) eqn:E; [done|].
    apply all_or_nothing_none_inv in E as (x & Hin & Hx).
    apply (ws_list_item _ _ _ _ x); [done|by apply IH].
  - destruct j as [| | | | | |d]; try (by apply ws_model).
    rewrite validate_model in H.
    destruct (bind_fields d fs) eqn:E; [done|].
    apply bind_fields_none in E as ([n [ty dflt]] & Hin & Hf).
    unfold field_value in Hf. simpl in Hf.
    destruct (dict_get n d) as [x|] eqn:Hget.
    + apply (ws_model_field _ _ _ _ n ty dflt x); [done..|].
      rewrite Forall_forall in IH. by apply (IH (n, (ty, dflt))).
    + destruct dflt; [|done]. by apply (ws_model_missing _ _ _ _ n ty).
Qed.

End WrongShapeFacts.

(** *** The three response models *)

Lemma response_fields_declare_defaults k :
  Forall (fun f : field =>
            exists v, snd (snd f) = Default v /\ declared_default (fst (snd f)) = Some v)
         (response_model k).
Proof.
  destruct k; repeat (constructor; [eexists; split; reflexivity|]); constructor.
Qed.

Lemma response_field_names_distinct k : NoDup (map fst (response_model k)).
Proof. destruct k; apply (bool_decide_unpack _); vm_compute; exact I. Qed.

Lemma response_field_default k f :
  f ∈ response_model k ->
  exists v, snd (snd f) = Default v /\ declared_default (fst (snd f)) = Some v.
Proof.
  intros Hin. pose proof (response_fields_declare_defaults k) as H.
  rewrite Forall_forall in H. by apply H.
Qed.

Lemma distinct_names_same_field (fs : list field) n a b :
  NoDup (map fst fs) -> (n, a) ∈ fs -> (n, b) ∈ fs -> a = b.
Proof.
  induction fs as [|[m c] fs IH]; intros Hnd Ha Hb; [by apply elem_of_nil in Ha|].
  simpl in Hnd. apply NoDup_cons in Hnd as [Hfresh Hnd].
  apply elem_of_cons in Ha as [Ha|Ha]; apply elem_of_cons in Hb as [Hb|Hb].
  - congruence.
  - injection Ha as -> ->. exfalso. apply Hfresh.
    by apply (list_elem_of_fmap_2 fst fs (m, b)).
  - injection Hb as -> ->. exfalso. apply Hfresh.
    by apply (list_elem_of_fmap_2 fst fs (m, a)).
  - by apply IH.
Qed.

Lemma confidence_declared k :
  ("confidence"%string, (TFloat, Default (VFloat 0))) ∈ response_model k.
Proof. destruct k; repeat constructor. Qed.

Section ResponseFacts.

Variable str_to_float : string -> option Q.
Variable str_to_int : string -> option Z.

Abbreviation validate := (validate str_to_float str_to_int).
Abbreviation field_value := (field_value str_to_float str_to_int).
Abbreviation bind_fields := (bind_fields str_to_float str_to_int).
Abbreviation construct := (construct str_to_float str_to_int).

(** A constructed response holds, for each declared field, what the
    keyword arguments give it. *)
Lemma construct_attr k d r n ty dflt :
  construct (response_model k) (JObj d) = Ok r ->
  (n, (ty, dflt)) ∈ response_model k ->
  attr n r = field_value d (n, (ty, dflt)).
Proof.
  intros (attrs & Hb & ->)%construct_ok_iff Hin. simpl.
  apply (bind_fields_attr _ _ d (response_model k) attrs (n, (ty, dflt)));
    [done|apply response_field_names_distinct|done].
Qed.

(** Construction fails only on a field that is present and refused. *)
Lemma construct_raise_present k d e :
  construct (response_model k) (JObj d) = Raise e ->
  e = ValidationError /\
  exists n ty dflt x,
    (n, (ty, dflt)) ∈ response_model k /\ dict_get n d = Some x /\ validate ty x = None.
Proof.
  intros [-> Hb]%construct_raise. split; [done|].
  apply bind_fields_none in Hb as ([n [ty dflt]] & Hin & Hf).
  exists n, ty, dflt. unfold field_value in Hf. simpl in Hf.
  destruct (dict_get n d) as [x|] eqn:E; [by exists x|].
  destruct (response_field_default k _ Hin) as (v & Hd & _). simpl in Hd.
  by rewrite Hd in Hf.
Qed.

End ResponseFacts.

(** C6.  For each of the three response models and every JSON object: a
    declared top-level field that the object does not have gets its
    declared default (null, the empty list, 0.0 for [confidence]);
    construction raises only the validation error, and only when a field
    that is present is refused; the empty object constructs. *)
Theorem absent_fields_take_defaults :
  forall (str_to_float : string -> option Q) (str_to_int : string -> option Z)
         (k : doc_kind) (d : list (string * json)),
    (forall n ty dflt,
        (n, (ty, dflt)) ∈ response_model k /\ dict_get n d = None ->
        exists v,
          dflt = Default v /\ declared_default ty = Some v /\
          forall r, construct str_to_float str_to_int (response_model k) (JObj d) = Ok r ->
                    attr n r = Some v)
    /\ (forall e,
          construct str_to_float str_to_int (response_model k) (JObj d) = Raise e ->
          e = ValidationError /\
          exists n ty dflt x,
            (n, (ty, dflt)) ∈ response_model k /\ dict_get n d = Some x /\
            validate str_to_float str_to_int ty x = None)
    /\ (exists r, construct str_to_float str_to_int (response_model k) (JObj []) = Ok r).
Proof.
  intros s2f s2i k d. split; [|split].
  - intros n ty dflt [Hin Habs].
    destruct (response_field_default k _ Hin) as (v & Hd & Hdecl). simpl in Hd, Hdecl.
    exists v. split; [done|]. split; [done|]. intros r Hr.
    rewrite (construct_attr s2f s2i k d r n ty dflt Hr Hin).
    unfold field_value. simpl. by rewrite Habs, Hd.
  - apply construct_raise_present.
  - destruct (construct s2f s2i (response_model k) (JObj [])) as [r|e] eqn:E; [by exists r|].
    apply construct_raise_present in E as (_ & n & ty & dflt & x & _ & Hget & _).
    discriminate Hget.
Qed.

(** C9 (as amended).  A [confidence] outside [0,1] that is a JSON float,
    or a JSON integer that converts to a double, is accepted by the float
    field without clamping: a constructed response carries the float
    itself, resp. the double nearest the integer, which is the integer
    itself up to [2^53] in magnitude; and when construction fails, a field
    other than [confidence] was refused. *)
Theorem confidence_passes_through :
  forall (str_to_float : string -> option Q) (str_to_int : string -> option Z)
         (k : doc_kind) (d : list (string * json)) (j : json) (x : Q),
    dict_get "confidence" d = Some j ->
    json_number j = Some x ->
    (x < 0 \/ 1 < x)%Q ->
    validate str_to_float str_to_int TFloat j = Some (VFloat x)
    /\ (forall r, construct str_to_float str_to_int (response_model k) (JObj d) = Ok r ->
                  attr "confidence" r = Some (VFloat x))
    /\ (forall e,
          construct str_to_float str_to_int (response_model k) (JObj d) = Raise e ->
          exists n ty dflt y,
            n <> "confidence"%string /\ (n, (ty, dflt)) ∈ response_model k /\
            dict_get n d = Some y /\ validate str_to_float str_to_int ty y = None)
    /\ (forall y, j = JFloat y -> x = y)
    /\ (forall n, j = JInt n -> Z.abs n <= 2 ^ 53 -> x = inject_Z n).
Proof.
  intros s2f s2i k d j x Hget Hnum _.
  assert (validate s2f s2i TFloat j = Some (VFloat x)) as Hval.
  { destruct j; simpl in Hnum; try done; simpl; [by rewrite Hnum|by injection Hnum as <-]. }
  split; [done|]. split; [|split; [|split]].
  - intros r Hr.
    rewrite (construct_attr s2f s2i k d r _ _ _ Hr (confidence_declared k)).
    unfold field_value. simpl. by rewrite Hget.
  - intros e (_ & n & ty & dflt & y & Hin & Hy & Hrej)%construct_raise_present.
    exists n, ty, dflt, y. split; [|done]. intros ->.
    pose proof (distinct_names_same_field _ _ _ _
                  (response_field_names_distinct k) Hin (confidence_declared k)) as Heq.
    injection Heq as -> ->. congruence.
  - intros y ->. simpl in Hnum. congruence.
  - intros n -> Hn. simpl in Hnum. rewrite float_of_int_exact in Hnum by done. congruence.
Qed.

Lemma confidence_passes_through_witness :
  let d := [("bol_number"%string, JStr "MEDU4712839"); ("confidence"%string, JInt (-3))] in
  validate NumRef.float_of_str NumRef.int_of_str TFloat (JInt (-3))
    = Some (VFloat (inject_Z (-3)))
  /\ (forall r, construct NumRef.float_of_str NumRef.int_of_str BOLResponse (JObj d) = Ok r ->
                attr "confidence" r = Some (VFloat (inject_Z (-3))))
  /\ (forall e,
        construct NumRef.float_of_str NumRef.int_of_str BOLResponse (JObj d) = Raise e ->
        exists n ty dflt y,
          n <> "confidence"%string /\ (n, (ty, dflt)) ∈ BOLResponse /\
          dict_get n d = Some y /\
          validate NumRef.float_of_str NumRef.int_of_str ty y = None)
  /\ (forall y, JInt (-3) = JFloat y -> inject_Z (-3) = y)
  /\ (forall n, JInt (-3) = JInt n -> Z.abs n <= 2 ^ 53 -> inject_Z (-3) = inject_Z n).
Proof.
  apply (confidence_passes_through NumRef.float_of_str NumRef.int_of_str BillOfLading).
  - reflexivity.
  - reflexivity.
  - left. reflexivity.
Defined.

(** C9 fails as stated: a [confidence] written as an integer too large for
    a double, here 1 followed by 309 zeros, is a number outside [0,1] and
    is refused with the validation error. *)
Lemma huge_integer_confidence_is_refused :
  let reply :=
    js "{'bol_number': 'MEDU4712839', 'confidence': 1" ++ replicate 309 "0"%char ++ t "}" in
  JsonRef.json_loads reply
  = Ok (JObj [("bol_number"%string, JStr "MEDU4712839"); ("confidence"%string, JInt (10 ^ 309))])
  /\ (1 <? 10 ^ 309) = true
  /\ parse_route JsonRef.json_loads (fun _ _ => Ok reply)
       NumRef.float_of_str NumRef.int_of_str BillOfLading
       (t "You are a freight document parsing engine.")
       (t "BILL OF LADING B/L No: MEDU4712839") None
     = Raise ValidationError.
Proof. vm_compute. repeat split; reflexivity. Qed.

(** The edge of the doubles: the largest integer that still converts, and
    the first that does not. *)
Example float_of_int_edge :
  float_of_int (2 ^ 1024 - 2 ^ 970 - 1) = Some (inject_Z (2 ^ 1024 - 2 ^ 971))
  /\ float_of_int (2 ^ 1024 - 2 ^ 970) = None
  /\ float_of_int (2 ^ 53 + 1) = Some (inject_Z (2 ^ 53))
  /\ float_of_int (- (2 ^ 53 + 3)) = Some (inject_Z (- (2 ^ 53 + 4))).
Proof. vm_compute. repeat split; reflexivity. Qed.

Example confidence_out_of_range_end_to_end :
  exists attrs,
    parse_route JsonRef.json_loads
      (fun _ _ => Ok (js "{'bol_number': 'MEDU4712839', 'confidence': 1.7}"))
      NumRef.float_of_str NumRef.int_of_str BillOfLading
      (t "You are a freight document parsing engine.")
      (t "BILL OF LADING B/L No: MEDU4712839") (Some (t "MSC"))
    = Ok (VModel attrs)
    /\ assoc "confidence" attrs = Some (VFloat (17 # 10))
    /\ assoc "bol_number" attrs = Some (VStr "MEDU4712839")
    /\ assoc "containers" attrs = Some (VList []).
Proof. eexists. vm_compute. repeat split; reflexivity. Qed.

(** C3 (as amended).  The construction of a response fails, as a whole
    and with the validation error, exactly when the JSON object has a wrong
    shape somewhere under a declared field — text that is no numeral where
    a number is declared, a list item without its required [description],
    null where a list is declared.  A response that is constructed has
    every declared field, and holds for each declared key of the object
    the value the conversion gives.  The conversion brings a numeral
    string, a boolean and an integer within the doubles to a [float], and
    a numeral string, a boolean and an integral float strictly between
    [-2^63] and [2^63] to an [int]; it brings nothing but text to a
    [str]. *)
Theorem wrong_shape_fails_whole_request :
  forall (str_to_float : string -> option Q) (str_to_int : string -> option Z)
         (k : doc_kind) (d : list (string * json)),
    (wrong_shape str_to_float str_to_int (TModel (response_model k)) (JObj d) <->
     construct str_to_float str_to_int (response_model k) (JObj d) = Raise ValidationError)
    /\ (forall r,
          construct str_to_float str_to_int (response_model k) (JObj d) = Ok r ->
          exists attrs,
            r = VModel attrs /\ map fst attrs = map fst (response_model k) /\
            forall n ty dflt x,
              (n, (ty, dflt)) ∈ response_model k -> dict_get n d = Some x ->
              exists v, validate str_to_float str_to_int ty x = Some v /\
                        assoc n attrs = Some v)
    /\ (forall (s : string) (n : Z) (x : Q) (b : bool) (j : json),
          validate str_to_float str_to_int TFloat (JStr s) = option_map VFloat (str_to_float s)
          /\ validate str_to_float str_to_int TFloat (JInt n) = option_map VFloat (float_of_int n)
          /\ validate str_to_float str_to_int TFloat (JBool b)
             = Some (VFloat (if b then 1 else 0))
          /\ validate str_to_float str_to_int TInt (JStr s) = option_map VInt (str_to_int s)
          /\ validate str_to_float str_to_int TInt (JFloat x) = option_map VInt (int_of_float x)
          /\ validate str_to_float str_to_int TInt (JBool b) = Some (VInt (if b then 1 else 0))
          /\ (is_text j = false -> validate str_to_float str_to_int TStr j = None)).
Proof.
  intros s2f s2i k d. split; [split|split].
  - intros H%wrong_shape_refused. unfold construct. by rewrite H.
  - unfold construct. intros H. apply refused_is_wrong_shape.
    by destruct (validate s2f s2i (TModel (response_model k)) (JObj d)).
  - intros r (attrs & Hb & ->)%construct_ok_iff. exists attrs. split; [done|].
    split; [by apply bind_fields_names in Hb|].
    intros n ty dflt x Hin Hget.
    pose proof (bind_fields_attr s2f s2i d _ attrs (n, (ty, dflt)) Hb
                  (response_field_names_distinct k) Hin) as Hattr.
    unfold field_value in Hattr. simpl in Hattr. rewrite Hget in Hattr.
    destruct (validate s2f s2i ty x) as [v|] eqn:Hv.
    + by exists v.
    + exfalso.
      pose proof (bind_fields_refused s2f s2i d _ (n, (ty, dflt)) Hin) as Hno.
      unfold field_value in Hno. simpl in Hno. rewrite Hget in Hno.
      rewrite (Hno Hv) in Hb. done.
  - intros s n x b j. repeat split. by destruct j.
Qed.

Lemma wrong_shape_fails_whole_request_witness :
  construct NumRef.float_of_str NumRef.int_of_str BOLResponse
    (JObj [("bol_number"%string, JStr "MEDU4712839");
           ("containers"%string,
            JList [JObj [("number"%string, JStr "MSCU7834521");
                         ("weight_kg"%string, JStr "heavy")]])])
  = Raise ValidationError
  /\ construct NumRef.float_of_str NumRef.int_of_str FreightInvoiceResponse
       (JObj [("line_items"%string, JList [JObj [("amount"%string, JInt 75)]])])
     = Raise ValidationError
  /\ construct NumRef.float_of_str NumRef.int_of_str PackingListResponse
       (JObj [("po_references"%string, JNull)])
     = Raise ValidationError
  /\ construct NumRef.float_of_str NumRef.int_of_str BOLResponse
       (JObj [("number_of_packages"%string, JFloat (inject_Z (10 ^ 19)))])
     = Raise ValidationError.
Proof.
  split; [|split; [|split]].
  - apply (proj1 (proj1 (wrong_shape_fails_whole_request _ _ BillOfLading _))).
    eapply (ws_model_field _ _ _ _ "containers"); [repeat constructor|reflexivity|].
    eapply ws_list_item; [repeat constructor|].
    eapply (ws_model_field _ _ _ _ "weight_kg"); [repeat constructor|reflexivity|].
    apply ws_optional; [discriminate|]. apply ws_float_text. reflexivity.
  - apply (proj1 (proj1 (wrong_shape_fails_whole_request _ _ FreightInvoice _))).
    eapply (ws_model_field _ _ _ _ "line_items"); [repeat constructor|reflexivity|].
    eapply ws_list_item; [repeat constructor|].
    eapply (ws_model_missing _ _ _ _ "description"); [repeat constructor|reflexivity].
  - apply (proj1 (proj1 (wrong_shape_fails_whole_request _ _ PackingList _))).
    eapply (ws_model_field _ _ _ _ "po_references"); [repeat constructor|reflexivity|].
    by apply ws_list.
  - apply (proj1 (proj1 (wrong_shape_fails_whole_request _ _ BillOfLading _))).
    eapply (ws_model_field _ _ _ _ "number_of_packages"); [repeat constructor|reflexivity|].
    apply ws_optional; [discriminate|]. apply ws_int_float. reflexivity.
Defined.

(** C3 fails as stated: a string where a float is declared is not refused
    when it reads as a numeral; the response is constructed with the
    string converted to the number. *)
Lemma numeric_string_is_coerced :
  let reply := js "{'containers': [{'number': 'MSCU7834521', 'weight_kg': '18450'}]}" in
  exists attrs,
    parse_route JsonRef.json_loads (fun _ _ => Ok reply)
      NumRef.float_of_str NumRef.int_of_str BillOfLading
      (t "You are a freight document parsing engine.")
      (t "BILL OF LADING B/L No: MEDU4712839") None
    = Ok (VModel attrs)
    /\ assoc "containers" attrs
       = Some (VList [VModel [("number"%string, VStr "MSCU7834521");
                              ("size"%string, VNone);
                              ("type"%string, VNone);
                              ("seal_number"%string, VNone);
                              ("weight_kg"%string, VFloat (inject_Z 18450))]]).
Proof. eexists. vm_compute. split; reflexivity. Qed.

(** ** Upload text extraction *)

(** *** Extraction lemmas *)

Lemma append_rows_spec pages table :
  append_rows pages table = pages ++ map row_text table.
Proof.
  unfold append_rows. revert pages.
  induction table as [|row table IH]; intros pages; simpl.
  - by rewrite app_nil_r.
  - rewrite IH. by rewrite <- app_assoc.
Qed.

Lemma fold_append_rows pages tables :
  fold_left append_rows tables pages = pages ++ map row_text (concat tables).
Proof.
  revert pages. induction tables as [|tb tables IH]; intros pages; simpl.
  - by rewrite app_nil_r.
  - rewrite IH, append_rows_spec, map_app. by rewrite <- app_assoc.
Qed.

Lemma page_step_spec pages p : page_step pages p = pages ++ page_lines p.
Proof.
  unfold page_step, page_lines. rewrite fold_append_rows.
  destruct (page_text p) as [s|]; [destruct (nonempty s)|]; simpl;
    by rewrite <- ?app_assoc.
Qed.

Lemma fold_page_step pages pdf :
  fold_left page_step pdf pages = pages ++ concat (map page_lines pdf).
Proof.
  revert pages. induction pdf as [|p pdf IH]; intros pages; simpl.
  - by rewrite app_nil_r.
  - rewrite IH, page_step_spec. by rewrite <- app_assoc.
Qed.

Lemma collect_pages_spec pdf : join [nl] (collect_pages pdf) = pdf_text pdf.
Proof. unfold collect_pages, pdf_text. by rewrite fold_page_step. Qed.

Lemma lstrip_nil_iff s : lstrip s = [] <-> forallb is_space s = true.
Proof.
  induction s as [|c s IH]; simpl; [done|].
  destruct (is_space c); simpl; [exact IH|]. split; discriminate.
Qed.

Lemma lstrip_keeps_blank s : forallb is_space (lstrip s) = true -> forallb is_space s = true.
Proof.
  induction s as [|c s IH]; simpl; [done|].
  destruct (is_space c) eqn:E; simpl; [exact IH|]. by rewrite E.
Qed.

Lemma forallb_rev {A} (f : A -> bool) l : forallb f (rev l) = forallb f l.
Proof.
  induction l as [|x l IH]; simpl; [done|].
  rewrite forallb_app, IH. simpl. rewrite andb_true_r. apply andb_comm.
Qed.

(** Nothing is left after [strip] exactly when every character is blank. *)
Lemma strip_empty_iff s : nonempty (strip s) = false <-> forallb is_space s = true.
Proof.
  assert (forall x : text, nonempty x = false <-> x = []) as Hne by (by intros []).
  rewrite Hne. unfold strip, rstrip. split.
  - intros H. apply lstrip_keeps_blank. rewrite <- forallb_rev.
    apply lstrip_nil_iff. rewrite <- (rev_involutive (lstrip _)). by rewrite H.
  - intros H. apply lstrip_nil_iff in H. by rewrite H.
Qed.

(** C8.  A payload above 10 MiB fails with 413 whatever its declared type
    and filename, and no decode, PDF parse or model call is started. *)
Theorem oversized_upload_fails_first :
  forall (B : backend) (file : UploadFile),
    MAX_FILE_SIZE < Z.of_nat (length (file_content file)) ->
    extract_text_from_upload B file = ([], Raise TOO_LARGE).
Proof.
  intros B file H. unfold extract_text_from_upload.
  apply Z.ltb_lt in H. by rewrite H.
Qed.

Lemma oversized_upload_fails_first_witness :
  extract_text_from_upload sample_backend fifteen_mib_pdf = ([], Raise TOO_LARGE).
Proof.
  apply (oversized_upload_fails_first sample_backend fifteen_mib_pdf).
  unfold fifteen_mib_pdf. cbn [file_content].
  rewrite length_replicate. rewrite Z2Nat.id by lia. unfold MAX_FILE_SIZE. lia.
Defined.

(** C7.  An upload within the size ceiling that is handled as a PDF and
    that pdfplumber reads gives, separated by newlines, each page's text
    followed by one pipe-delimited line per table row; when that text is
    empty or blank the request fails with the 422 that tells the caller
    to run OCR first. *)
Theorem pdf_extraction_text :
  forall (B : backend) (file : UploadFile) (pdf : list pdf_page),
    let content_type := default [] (file_content_type file) in
    let filename := lower (default [] (file_filename file)) in
    Z.of_nat (length (file_content file)) <= MAX_FILE_SIZE ->
    is_text_upload content_type filename = false ->
    is_pdf_upload content_type filename = true ->
    pdf_open B (file_content file) = inl pdf ->
    extract_text_from_upload B file
    = ([PdfParse],
       if forallb is_space (pdf_text pdf) then Raise PDF_NO_TEXT else Ok (pdf_text pdf)).
Proof.
  intros B file pdf content_type filename Hsize Htext Hpdf Hopen.
  unfold extract_text_from_upload. fold content_type filename.
  destruct (Z.ltb_spec MAX_FILE_SIZE (Z.of_nat (length (file_content file)))); [lia|].
  rewrite Htext, Hpdf, Hopen. cbv zeta. rewrite collect_pages_spec. f_equal.
  destruct (forallb is_space (pdf_text pdf)) eqn:E.
  - apply strip_empty_iff in E. by rewrite E.
  - destruct (nonempty (strip (pdf_text pdf))) eqn:E'; [done|].
    apply strip_empty_iff in E'. congruence.
Qed.

Lemma pdf_extraction_text_witness :
  extract_text_from_upload two_page_backend small_pdf
  = ([PdfParse],
     Ok (t "BILL OF LADING" ++ [nl] ++ t "Container | Weight" ++ [nl] ++ t "MSCU7834521 | ")).
Proof.
  rewrite (pdf_extraction_text two_page_backend small_pdf
             [ {| page_text := Some (t "BILL OF LADING");
                  page_tables := [ [ [Some (t "Container"); Some (t "Weight")];
                                     [Some (t "MSCU7834521"); None] ] ] |};
               {| page_text := None; page_tables := [] |} ]).
  - reflexivity.
  - vm_compute. discriminate.
  - reflexivity.
  - reflexivity.
  - reflexivity.
Defined.

(** A PDF whose pages carry no text and no table is refused. *)
Example image_only_pdf_refused :
  extract_text_from_upload
    {| utf8_decode := fun content => content;
       pdf_open := fun _ => inl [ {| page_text := None; page_tables := [] |};
                                  {| page_text := Some []; page_tables := [ [] ] |} ];
       vision := fun _ _ => VisionText [] |}
    small_pdf
  = ([PdfParse], Raise PDF_NO_TEXT).
Proof. reflexivity. Qed.

(** C5 (as amended).  Within the size ceiling, an upload whose declared
    type does not start with [text/] or [image/] and is not
    [application/pdf], and whose filename does not end in [.txt] or
    [.pdf], fails with the 415 that names the type and the supported
    kinds, and nothing is started on the payload. *)
Theorem unsupported_type_is_415 :
  forall (B : backend) (file : UploadFile),
    let content_type := default [] (file_content_type file) in
    let filename := lower (default [] (file_filename file)) in
    Z.of_nat (length (file_content file)) <= MAX_FILE_SIZE ->
    is_text_upload content_type filename = false ->
    is_pdf_upload content_type filename = false ->
    startswith (t "image/") content_type = false ->
    extract_text_from_upload B file = ([], Raise (UNSUPPORTED content_type)).
Proof.
  intros B file content_type filename Hsize Htext Hpdf Himg.
  unfold extract_text_from_upload. fold content_type filename.
  destruct (Z.ltb_spec MAX_FILE_SIZE (Z.of_nat (length (file_content file)))); [lia|].
  by rewrite Htext, Hpdf, Himg.
Qed.

Lemma unsupported_type_is_415_witness :
  extract_text_from_upload sample_backend
    {| file_content := t "PK";
       file_content_type := Some (t "application/zip");
       file_filename := Some (t "documents.zip") |}
  = ([], Raise (HTTPException 415
       (t "Unsupported file type: application/zip. Supported: PDF, PNG, JPEG, WebP, GIF, plain text."))).
Proof.
  apply (unsupported_type_is_415 sample_backend
           {| file_content := t "PK";
              file_content_type := Some (t "application/zip");
              file_filename := Some (t "documents.zip") |}).
  - vm_compute. discriminate.
  - reflexivity.
  - reflexivity.
  - reflexivity.
Defined.

(** C5 fails as stated: [text/html] and [image/tiff] are outside
    [SUPPORTED_MIME_TYPES], yet the first is decoded as plain text and the
    second goes to the model under the media type [image/png]. *)
Lemma types_outside_allow_list_are_accepted :
  let html := {| file_content := t "<html><body>B/L No: MEDU4712839</body></html>";
                 file_content_type := Some (t "text/html");
                 file_filename := Some (t "bol.html") |} in
  let tiff := {| file_content := t "II*";
                 file_content_type := Some (t "image/tiff");
                 file_filename := Some (t "bol.tiff") |} in
  bool_decide (t "text/html" ∈ SUPPORTED_MIME_TYPES) = false
  /\ bool_decide (t "image/tiff" ∈ SUPPORTED_MIME_TYPES) = false
  /\ extract_text_from_upload sample_backend html
     = ([TextDecode], Ok (t "<html><body>B/L No: MEDU4712839</body></html>"))
  /\ extract_text_from_upload sample_backend tiff
     = ([ModelCall (t "image/png")], Ok (t "BILL OF LADING")).
Proof. vm_compute. repeat split; reflexivity. Qed.

(** ** Rate limiter *)

(** *** Rate limiter lemmas *)

Lemma filter_none {A} (f : A -> bool) l :
  forallb (fun x => negb (f x)) l = true -> List.filter f l = [].
Proof.
  induction l as [|x l IH]; simpl; [done|].
  intros [Hx Hl]%andb_true_iff. apply negb_true_iff in Hx. rewrite Hx. by apply IH.
Qed.

Lemma filter_length_le {A} (f : A -> bool) l : (length (List.filter f l) <= length l)%nat.
Proof. induction l as [|x l IH]; simpl; [done|]. destruct (f x); simpl; lia. Qed.

(** Admission: fewer live hits than the ceiling. *)
Lemma check_rate_limit_admits L W now key store :
  Z.of_nat (length (List.filter (live W now) (default [] (store !! key)))) < L ->
  check_rate_limit L W now key store
  = (<[key := List.filter (live W now) (default [] (store !! key)) ++ [now]]> store, Ok tt).
Proof.
  intros H. unfold check_rate_limit.
  destruct (Z.leb_spec L (Z.of_nat (length (List.filter (live W now) (default [] (store !! key))))));
    [lia|done].
Qed.

(** Rejection: the store keeps the pruned hits and gains nothing. *)
Lemma check_rate_limit_rejects L W now key store :
  L <= Z.of_nat (length (List.filter (live W now) (default [] (store !! key)))) ->
  check_rate_limit L W now key store
  = (<[key := List.filter (live W now) (default [] (store !! key))]> store,
     Raise (RATE_LIMITED L W)).
Proof.
  intros H. unfold check_rate_limit.
  destruct (Z.leb_spec L (Z.of_nat (length (List.filter (live W now) (default [] (store !! key))))));
    [done|lia].
Qed.

(** While the hits stay under the ceiling and inside the window, every
    call is admitted and its time is appended. *)
Lemma run_calls_admitted L W key times :
  forall (acc : list Q) (store : gmap string (list Q)),
    store !! key = Some acc ->
    forallb (fun a => forallb (live W a) acc) times = true ->
    one_window W times = true ->
    Z.of_nat (length acc + length times) <= L ->
    exists store',
      run_calls L W key times store = (store', replicate (length times) (Ok tt))
      /\ store' !! key = Some (acc ++ times).
Proof.
  induction times as [|now rest IH]; intros acc store Hacc Hlive Hwin Hlen.
  - exists store. simpl. by rewrite app_nil_r.
  - simpl in Hlive. apply andb_true_iff in Hlive as [Hnow Hrest].
    simpl. rewrite check_rate_limit_admits; rewrite Hacc; simpl;
      rewrite (filter_all _ _ Hnow); [|simpl in Hlen; lia].
    destruct (IH (acc ++ [now]) (<[key := acc ++ [now]]> store)) as (store' & Hrun & Hget).
    + apply lookup_insert_eq.
    + unfold one_window in Hwin. simpl in Hwin.
      apply andb_true_iff in Hwin as [_ Hwin].
      rewrite forallb_forall in Hrest, Hwin. apply forallb_forall. intros a Ha.
      rewrite forallb_app. rewrite (Hrest a Ha). simpl.
      specialize (Hwin a Ha). simpl in Hwin.
      apply andb_true_iff in Hwin as [Hwin _]. by rewrite Hwin.
    + unfold one_window in *. simpl in Hwin.
      apply andb_true_iff in Hwin as [_ Hwin].
      rewrite forallb_forall in Hwin. apply forallb_forall. intros a Ha.
      specialize (Hwin a Ha). simpl in Hwin. by apply andb_true_iff in Hwin as [_ Hwin].
    + rewrite length_app. simpl in *. lia.
    + exists store'. rewrite Hrun. split; [done|]. by rewrite Hget, <- app_assoc.
Qed.

Lemma one_window_spec W nows :
  one_window W nows = true ->
  forall a b, In a nows -> In b nows -> live W a b = true.
Proof.
  unfold one_window. rewrite forallb_forall. intros H a b Ha Hb.
  specialize (H a Ha). rewrite forallb_forall in H. by apply H.
Qed.

Lemma one_window_intro W nows :
  (forall a b, In a nows -> In b nows -> live W a b = true) -> one_window W nows = true.
Proof.
  intros H. unfold one_window. apply forallb_forall. intros a Ha.
  apply forallb_forall. intros b Hb. by apply H.
Qed.

(** C4.  With a ceiling of [N >= 1]: [N] calls for one key that fall in
    one window, the key's earlier hits being out of that window, are all
    admitted; one more call in the same window is refused with 429 and
    leaves the store as it was; a call made once the window has elapsed
    since the first of them is admitted. *)
Theorem rate_limit_window :
  forall (key : string) (N : nat) (W : Z) (times : list Q) (extra later : Q)
         (store : gmap string (list Q)),
    (0 < N)%nat ->
    length times = N ->
    all_expired W (default [] (store !! key)) (times ++ [extra]) = true ->
    one_window W (times ++ [extra]) = true ->
    window_elapsed W times later = true ->
    exists store',
      run_calls (Z.of_nat N) W key times store = (store', replicate N (Ok tt))
      /\ store' !! key = Some times
      /\ check_rate_limit (Z.of_nat N) W extra key store'
         = (store', Raise (RATE_LIMITED (Z.of_nat N) W))
      /\ snd (check_rate_limit (Z.of_nat N) W later key store') = Ok tt.
Proof.
  intros key N W times extra later store HN Hlen Hold Hwin Hlater.
  destruct times as [|first rest]; [simpl in Hlen; lia|].
  pose proof (one_window_spec _ _ Hwin) as Hw.
  (* the first call finds only expired hits *)
  assert (check_rate_limit (Z.of_nat N) W first key store
          = (<[key := [first]]> store, Ok tt)) as Hfirst.
  { rewrite check_rate_limit_admits.
    - rewrite filter_none; [done|].
      unfold all_expired in Hold. simpl in Hold. by apply andb_true_iff in Hold as [Hold _].
    - rewrite filter_none; [simpl; lia|].
      unfold all_expired in Hold. simpl in Hold. by apply andb_true_iff in Hold as [Hold _]. }
  (* the others join it *)
  destruct (run_calls_admitted (Z.of_nat N) W key rest [first] (<[key := [first]]> store))
    as (store' & Hrun & Hget).
  { apply lookup_insert_eq. }
  { apply forallb_forall. intros a Ha. simpl. rewrite andb_true_r.
    apply Hw; simpl; [right; apply in_or_app; by left|by left]. }
  { apply one_window_intro. intros a b Ha Hb.
    apply Hw; simpl; right; apply in_or_app; by left. }
  { simpl in *. lia. }
  exists store'. simpl in Hget. split; [|split; [done|split]].
  - simpl. rewrite Hfirst, Hrun. simpl in Hlen. by rewrite <- Hlen.
  - assert (List.filter (live W extra) (first :: rest) = first :: rest) as Hkeep.
    { apply filter_all, forallb_forall. intros b Hb.
      apply Hw; [apply in_or_app; right; by left|].
      apply in_or_app. by left. }
    rewrite check_rate_limit_rejects; rewrite Hget; simpl default; rewrite Hkeep; [|lia].
    by rewrite insert_id.
  - simpl in Hlater. apply negb_true_iff in Hlater.
    rewrite check_rate_limit_admits; [done|].
    rewrite Hget. simpl. rewrite Hlater.
    pose proof (filter_length_le (live W later) rest). simpl in Hlen. lia.
Qed.

Lemma rate_limit_window_witness :
  let store : gmap string (list Q) := {[ "direct"%string := [ -100 ]%Q ]} in
  exists store',
    run_calls 3 60 "direct" [ 0; 20; 59.5 ]%Q store = (store', [Ok tt; Ok tt; Ok tt])
    /\ store' !! "direct"%string = Some [ 0; 20; 59.5 ]%Q
    /\ check_rate_limit 3 60 59.9%Q "direct" store' = (store', Raise (RATE_LIMITED 3 60))
    /\ snd (check_rate_limit 3 60 60%Q "direct" store') = Ok tt.
Proof.
  apply (rate_limit_window "direct" 3 60 [ 0; 20; 59.5 ]%Q 59.9%Q 60%Q
           {[ "direct"%string := [ -100 ]%Q ]}).
  - lia.
  - reflexivity.
  - vm_compute. reflexivity.
  - vm_compute. reflexivity.
  - vm_compute. reflexivity.
Defined.

(** With a ceiling of 0 nothing is ever admitted. *)
Example zero_ceiling_admits_nothing :
  snd (check_rate_limit 0 60 0%Q "direct" ∅) = Raise (RATE_LIMITED 0 60).
Proof. reflexivity. Qed.

(** ** Authentication *)

Lemma empty_key_not_allowed env_value : [] ∉ INTERNAL_API_KEYS env_value.
Proof.
  unfold INTERNAL_API_KEYS. rewrite elem_of_list_to_set, list_elem_of_In, filter_In.
  by intros [_ H].
Qed.

(** C10.  With the proxy secret unset (the empty string), no header value
    authenticates as [rapidapi]; the empty key is never in the allow-set;
    the request is accepted exactly when its [X-API-Key] is an allowed
    key, which is then non-empty, and is refused with 401 otherwise. *)
Theorem unset_proxy_secret_never_authenticates :
  forall (api_keys_env : option text) (rapidapi_secret : option text)
         (request : option Request),
    let keys := INTERNAL_API_KEYS api_keys_env in
    let outcome := verify_api_key (RAPIDAPI_SECRET None) keys rapidapi_secret request in
    outcome <> Ok (t "rapidapi")
    /\ ([] ∉ keys)
    /\ (outcome = Ok (t "direct") <->
        exists k, request = Some {| x_api_key := Some k |} /\ k <> [] /\ k ∈ keys)
    /\ (outcome = Raise UNAUTHORIZED <-> direct_key request ∉ keys)
    /\ (direct_key request = [] -> outcome = Raise UNAUTHORIZED).
Proof.
  intros api_keys_env rapidapi_secret request keys outcome.
  pose proof (empty_key_not_allowed api_keys_env) as Hempty. fold keys in Hempty.
  assert (outcome = if bool_decide (direct_key request ∈ keys)
                    then Ok (t "direct") else Raise UNAUTHORIZED) as Hout by done.
  split; [|split; [done|split; [|split]]].
  - rewrite Hout. by case_bool_decide.
  - rewrite Hout. case_bool_decide as Hin; split.
    + intros _. destruct request as [[[k|]]|]; simpl in Hin; [|done..].
      exists k. split; [done|]. split; [|done]. by intros ->.
    + done.
    + done.
    + intros (k & -> & _ & Hk). by simpl in Hin.
  - rewrite Hout. case_bool_decide; split; done.
  - intros Hk. rewrite Hout, Hk. by rewrite bool_decide_eq_false_2.
Qed.

Example verify_api_key_samples :
  let keys := INTERNAL_API_KEYS (Some (t "alpha,,beta,")) in
  verify_api_key [] keys None None = Raise UNAUTHORIZED
  /\ verify_api_key [] keys (Some []) (Some {| x_api_key := Some [] |}) = Raise UNAUTHORIZED
  /\ verify_api_key [] keys (Some []) (Some {| x_api_key := Some (t "beta") |}) = Ok (t "direct")
  /\ verify_api_key (t "s3cret") keys (Some (t "s3cret")) None = Ok (t "rapidapi")
  /\ verify_api_key [] (INTERNAL_API_KEYS None) None (Some {| x_api_key := Some (t "test-key") |})
     = Ok (t "direct").
Proof. repeat split; by vm_compute. Qed.

(** ** More on the rate limiter *)

Lemma check_rate_limit_other L W now key other store :
  other <> key -> fst (check_rate_limit L W now key store) !! other = store !! other.
Proof.
  intros Hne. unfold check_rate_limit.
  destruct (L <=? _); simpl; by rewrite lookup_insert_ne.
Qed.

Lemma check_rate_limit_same_hits L W now key store1 store2 :
  store1 !! key = store2 !! key ->
  snd (check_rate_limit L W now key store1) = snd (check_rate_limit L W now key store2)
  /\ fst (check_rate_limit L W now key store1) !! key
     = fst (check_rate_limit L W now key store2) !! key.
Proof.
  intros H. unfold check_rate_limit. rewrite H.
  destruct (L <=? _); simpl; by rewrite !lookup_insert_eq.
Qed.

Lemma filter_live_all (f : Q -> bool) l : Forall (fun h => f h = true) (List.filter f l).
Proof.
  apply Forall_forall. intros h Hin. apply list_elem_of_In, filter_In in Hin. by destruct Hin.
Qed.

(** Keys are limited apart: whatever is served for other keys, in any
    number and at any times, a key keeps its hits and the answer its next
    call gets. *)
Theorem rate_limit_keys_isolated :
  forall (L W : Z) (key : string) (requests : list (string * Q)) (now : Q)
         (store : gmap string (list Q)),
    Forall (fun r => fst r <> key) requests ->
    serve L W requests store !! key = store !! key
    /\ snd (check_rate_limit L W now key (serve L W requests store))
       = snd (check_rate_limit L W now key store).
Proof.
  intros L W key requests now store Hother.
  assert (serve L W requests store !! key = store !! key) as Hsame.
  { revert store. induction Hother as [|[k t0] rest Hk _ IH]; intros store; [done|].
    simpl. rewrite IH. apply check_rate_limit_other. simpl in Hk. congruence. }
  split; [done|]. by apply check_rate_limit_same_hits.
Qed.

Lemma rate_limit_keys_isolated_witness :
  let store : gmap string (list Q) := {[ "direct"%string := [ 1; 2 ]%Q ]} in
  let others := [ ("rapidapi"%string, 3%Q); ("rapidapi"%string, 4%Q); ("rapidapi"%string, 5%Q) ] in
  serve 2 60 others store !! "direct"%string = store !! "direct"%string
  /\ snd (check_rate_limit 2 60 6%Q "direct" (serve 2 60 others store))
     = snd (check_rate_limit 2 60 6%Q "direct" store).
Proof.
  apply (rate_limit_keys_isolated 2 60 "direct"
           [ ("rapidapi"%string, 3%Q); ("rapidapi"%string, 4%Q); ("rapidapi"%string, 5%Q) ]).
  repeat constructor; discriminate.
Defined.

Lemma check_rate_limit_bounded L W now key store :
  (forall k hits, store !! k = Some hits -> Z.of_nat (length hits) <= L) ->
  0 <= L ->
  forall k hits,
    fst (check_rate_limit L W now key store) !! k = Some hits -> Z.of_nat (length hits) <= L.
Proof.
  intros Hinv HL k hits. unfold check_rate_limit.
  set (pruned := List.filter (live W now) (default [] (store !! key))).
  destruct (Z.leb_spec L (Z.of_nat (length pruned))) as [Hfull|Hroom]; simpl;
    (destruct (decide (k = key)) as [->|Hne];
     [rewrite lookup_insert_eq; intros [= <-]|rewrite lookup_insert_ne by done; apply Hinv]).
  - pose proof (filter_length_le (live W now) (default [] (store !! key))) as Hle.
    unfold pruned in *. clear pruned.
    destruct (store !! key) as [old|] eqn:E; simpl in *; [|lia].
    specialize (Hinv key old E). lia.
  - rewrite length_app. simpl. lia.
Qed.

(** The table stays bounded: from the empty table, after any calls for
    any keys at any times, no key holds more hits than the ceiling. *)
Theorem rate_limit_hits_bounded :
  forall (L W : Z) (requests : list (string * Q)) (key : string) (hits : list Q),
    0 <= L ->
    serve L W requests ∅ !! key = Some hits ->
    Z.of_nat (length hits) <= L.
Proof.
  intros L W requests key hits HL.
  assert (forall store : gmap string (list Q),
             (forall k h, store !! k = Some h -> Z.of_nat (length h) <= L) ->
             forall k h, serve L W requests store !! k = Some h -> Z.of_nat (length h) <= L)
    as Hgen.
  { induction requests as [|[k0 t0] rest IH]; intros store Hinv; [exact Hinv|].
    simpl. apply IH. by apply check_rate_limit_bounded. }
  apply Hgen. intros k h Hk. by rewrite lookup_empty in Hk.
Qed.

Lemma rate_limit_hits_bounded_witness :
  let requests :=
    [ ("direct"%string, 0%Q); ("rapidapi"%string, 1%Q); ("direct"%string, 10%Q);
      ("direct"%string, 10.5%Q); ("direct"%string, 11%Q); ("direct"%string, 61%Q);
      ("direct"%string, 70.25%Q) ] in
  serve 2 60 requests ∅ !! "direct"%string = Some [ 61; 70.25 ]%Q
  /\ Z.of_nat (length [ 61; 70.25 ]%Q) <= 2.
Proof.
  split; [vm_compute; reflexivity|].
  apply (rate_limit_hits_bounded 2 60
           [ ("direct"%string, 0%Q); ("rapidapi"%string, 1%Q); ("direct"%string, 10%Q);
             ("direct"%string, 10.5%Q); ("direct"%string, 11%Q); ("direct"%string, 61%Q);
             ("direct"%string, 70.25%Q) ]
           "direct" [ 61; 70.25 ]%Q).
  - lia.
  - vm_compute. reflexivity.
Defined.

(** After a call the key is in the table, and what the table holds for
    it is inside the window of that call or is the call itself: hits that
    have left the window are dropped even when the call is refused. *)
Theorem rate_limit_leaves_no_expired_hit :
  forall (L W : Z) (now : Q) (key : string) (store : gmap string (list Q)),
    exists hits,
      fst (check_rate_limit L W now key store) !! key = Some hits
      /\ Forall (fun h => live W now h = true \/ h = now) hits.
Proof.
  intros L W now key store. unfold check_rate_limit.
  destruct (L <=? _); simpl; rewrite lookup_insert_eq; eexists; (split; [reflexivity|]).
  - eapply Forall_impl; [apply filter_live_all|]. intros h Hh. by left.
  - apply Forall_app. split.
    + eapply Forall_impl; [apply filter_live_all|]. intros h Hh. by left.
    + constructor; [by right|constructor].
Qed.

(** ** More on authentication *)

Lemma allowed_key_spec env_value k :
  k ∈ INTERNAL_API_KEYS env_value <->
  k <> [] /\ k ∈ split ","%char (default (t "test-key") env_value).
Proof.
  unfold INTERNAL_API_KEYS. rewrite elem_of_list_to_set, list_elem_of_In, filter_In.
  rewrite <- list_elem_of_In. destruct k; simpl; naive_solver.
Qed.

(** The allow-set holds exactly the non-empty pieces of [API_KEYS] between
    commas, so no allowed key is empty or has a comma in it; unset, it is
    the one key [test-key]; set to the empty string, it is empty and no
    direct caller can get in. *)
Theorem allowed_keys_are_the_comma_pieces :
  forall (env_value : option text) (k : text),
    (k ∈ INTERNAL_API_KEYS env_value <->
     k <> [] /\ k ∈ split ","%char (default (t "test-key") env_value))
    /\ (k ∈ INTERNAL_API_KEYS env_value -> ","%char ∉ k)
    /\ INTERNAL_API_KEYS None = {[ t "test-key" ]}
    /\ INTERNAL_API_KEYS (Some []) = ∅.
Proof.
  intros env_value k. split; [apply allowed_key_spec|]. split; [|split].
  - intros [_ Hin]%allowed_key_spec. by apply split_pieces_free in Hin.
  - apply set_eq. intros x. rewrite allowed_key_spec, elem_of_singleton. simpl.
    change (split ","%char (t "test-key")) with [t "test-key"].
    rewrite list_elem_of_singleton. split; [by intros [_ ->]|by intros ->].
  - apply set_eq. intros x. rewrite allowed_key_spec. simpl.
    rewrite list_elem_of_singleton. set_solver.
Qed.

(** The whole table of [verify_api_key]: a caller is [rapidapi] exactly
    when a secret is configured and the proxy header equals it, whatever
    key it shows; otherwise it is [direct] exactly when its key is allowed;
    otherwise it is refused with 401, and nothing else ever comes out. *)
Theorem verify_api_key_table :
  forall (secret : text) (keys : gset text) (rapidapi_secret : option text)
         (request : option Request),
    let outcome := verify_api_key secret keys rapidapi_secret request in
    let by_secret := secret <> [] /\ rapidapi_secret = Some secret in
    (outcome = Ok (t "rapidapi") <-> by_secret)
    /\ (outcome = Ok (t "direct") <-> ~ by_secret /\ direct_key request ∈ keys)
    /\ (outcome = Raise UNAUTHORIZED <-> ~ by_secret /\ direct_key request ∉ keys)
    /\ (outcome = Ok (t "rapidapi") \/ outcome = Ok (t "direct")
        \/ outcome = Raise UNAUTHORIZED).
Proof.
  intros secret keys rapidapi_secret request outcome by_secret.
  unfold outcome, by_secret, verify_api_key.
  destruct secret as [|c secret]; simpl.
  - case_bool_decide; repeat split; try done; naive_solver.
  - case_bool_decide; [|case_bool_decide]; repeat split; try done; naive_solver.
Qed.

(** ** The model client *)

Lemma get_client_missing key :
  key = None \/ key = Some [] -> get_client key = Raise (RuntimeError NO_API_KEY).
Proof. by intros [->| ->]. Qed.

(** [call_claude], outcome by outcome.  Without a credential it answers
    the 503 and the request is never made.  With one, it returns the text
    of the first block of the message, answers the 502 that carries the
    message of an [anthropic.APIError], and lets every other exception
    through as it is; one of them is its own, the [IndexError] of
    [message.content[0]] when the message has no block. *)
Theorem call_claude_outcomes :
  forall (ANTHROPIC_API_KEY CLAUDE_MODEL : option text)
         (create : text -> text -> Z -> text -> text -> api_reply)
         (system_prompt user_text : text),
    let missing := ANTHROPIC_API_KEY = None \/ ANTHROPIC_API_KEY = Some [] in
    let answer := call_claude ANTHROPIC_API_KEY CLAUDE_MODEL create system_prompt user_text in
    (missing -> answer = Raise (HTTPException 503 NO_API_KEY))
    /\ (forall key, ANTHROPIC_API_KEY = Some key -> key <> [] ->
          answer
          = match create key (default DEFAULT_MODEL CLAUDE_MODEL) 2048 system_prompt user_text with
            | Message (block :: _) => Ok block
            | Message [] => Raise IndexError
            | APIError message => Raise (HTTPException 502 (t "AI model error: " ++ message))
            | OtherError e => Raise e
            end)
    /\ (answer = Raise IndexError ->
        exists key, ANTHROPIC_API_KEY = Some key /\
          let reply := create key (default DEFAULT_MODEL CLAUDE_MODEL) 2048 system_prompt user_text in
          reply = Message [] \/ reply = OtherError IndexError).
Proof.
  intros key model create system_prompt user_text missing answer.
  unfold answer, call_claude, missing. split; [|split].
  - intros H%get_client_missing. by rewrite H.
  - intros k -> Hk. destruct k as [|c k]; [done|]. simpl.
    by destruct (create _ _ _ _ _) as [[|block rest]|message|e].
  - destruct key as [[|c k]|]; simpl; try done.
    intros H. exists (c :: k). split; [done|]. cbv zeta.
    destruct (create _ _ _ _ _) as [[|block rest]|message|e]; simpl in H;
      [by left|done|done|right; congruence].
Qed.

(** A message without a content block, which the API may send, ends a text
    route in an [IndexError], not in an HTTP error of the service. *)
Example empty_message_raises_index_error :
  call_claude (Some (t "sk-ant-test")) None (fun _ _ _ _ _ => Message [])
    (t "You are a freight document parsing engine.") (t "BILL OF LADING")
  = Raise IndexError
  /\ extract_text_from_upload
       {| utf8_decode := utf8_decode sample_backend;
          pdf_open := pdf_open sample_backend;
          vision := vision_with_client (Some (t "sk-ant-test")) None
                      (fun _ _ _ _ _ => Message []) |}
       {| file_content := t "PNG";
          file_content_type := Some (t "image/png");
          file_filename := Some (t "scan.png") |}
     = ([ModelCall (t "image/png")], Raise IndexError).
Proof. vm_compute. split; reflexivity. Qed.

(** Without a credential the two users of the client part ways: a text
    route answers 503 whatever the text and the model, while an image
    upload lets the [RuntimeError] of [get_client] through, which is no
    HTTP error. *)
Theorem missing_credential_503_or_runtime_error :
  forall (ANTHROPIC_API_KEY CLAUDE_MODEL : option text)
         (json_loads : text -> result json)
         (create : text -> text -> Z -> text -> text -> api_reply)
         (create_vision : text -> text -> Z -> text -> list ascii -> api_reply)
         (B : backend) (file : UploadFile)
         (system_prompt text_ : text) (carrier_hint : option text),
    ANTHROPIC_API_KEY = None \/ ANTHROPIC_API_KEY = Some [] ->
    let content_type := default [] (file_content_type file) in
    let filename := lower (default [] (file_filename file)) in
    Z.of_nat (length (file_content file)) <= MAX_FILE_SIZE ->
    is_text_upload content_type filename = false ->
    is_pdf_upload content_type filename = false ->
    startswith (t "image/") content_type = true ->
    parse_document json_loads (call_claude ANTHROPIC_API_KEY CLAUDE_MODEL create)
      system_prompt text_ carrier_hint
    = Raise (HTTPException 503 NO_API_KEY)
    /\ extract_text_from_upload
         {| utf8_decode := utf8_decode B;
            pdf_open := pdf_open B;
            vision := vision_with_client ANTHROPIC_API_KEY CLAUDE_MODEL create_vision |}
         file
       = ([ModelCall (vision_media_type content_type)], Raise (RuntimeError NO_API_KEY)).
Proof.
  intros key model json_loads create create_vision B file system_prompt text_ hint
    Hmissing content_type filename Hsize Htext Hpdf Himg.
  apply get_client_missing in Hmissing. split.
  - unfold parse_document, call_claude. by rewrite Hmissing.
  - unfold extract_text_from_upload.
    destruct (Z.ltb_spec MAX_FILE_SIZE (Z.of_nat (length (file_content file)))); [lia|].
    fold content_type filename. rewrite Htext, Hpdf, Himg. cbn [vision].
    unfold vision_with_client. by rewrite Hmissing.
Qed.

Lemma missing_credential_503_or_runtime_error_witness :
  parse_document JsonRef.json_loads
    (call_claude None None (fun _ _ _ _ _ => Message [js "{'bol_number': 'X'}"]))
    (t "You are a freight document parsing engine.")
    (t "BILL OF LADING B/L No: MEDU4712839") None
  = Raise (HTTPException 503 NO_API_KEY)
  /\ extract_text_from_upload
       {| utf8_decode := utf8_decode sample_backend;
          pdf_open := pdf_open sample_backend;
          vision := vision_with_client None None (fun _ _ _ _ _ => Message [t "BILL OF LADING"]) |}
       {| file_content := t "PNG";
          file_content_type := Some (t "image/png");
          file_filename := Some (t "scan.png") |}
     = ([ModelCall (t "image/png")], Raise (RuntimeError NO_API_KEY)).
Proof.
  apply (missing_credential_503_or_runtime_error None None JsonRef.json_loads
           (fun _ _ _ _ _ => Message [js "{'bol_number': 'X'}"])
           (fun _ _ _ _ _ => Message [t "BILL OF LADING"])
           sample_backend
           {| file_content := t "PNG";
              file_content_type := Some (t "image/png");
              file_filename := Some (t "scan.png") |}).
  - by left.
  - vm_compute. discriminate.
  - reflexivity.
  - reflexivity.
  - reflexivity.
Defined.

(** ** The endpoints *)

Lemma verify_direct secret keys rapidapi_secret request :
  secret = [] \/ rapidapi_secret <> Some secret ->
  direct_key request ∈ keys ->
  verify_api_key secret keys rapidapi_secret request = Ok (t "direct").
Proof.
  intros Hsecret Hkey. unfold verify_api_key.
  destruct Hsecret as [->|Hne]; simpl.
  - by rewrite bool_decide_eq_true_2.
  - rewrite (bool_decide_eq_false_2 _ Hne), andb_false_r. by rewrite bool_decide_eq_true_2.
Qed.

Lemma verify_refused secret keys rapidapi_secret request :
  secret = [] \/ rapidapi_secret <> Some secret ->
  direct_key request ∉ keys ->
  verify_api_key secret keys rapidapi_secret request = Raise UNAUTHORIZED.
Proof.
  intros Hsecret Hkey. unfold verify_api_key.
  destruct Hsecret as [->|Hne]; simpl.
  - by rewrite bool_decide_eq_false_2.
  - rewrite (bool_decide_eq_false_2 _ Hne), andb_false_r. by rewrite bool_decide_eq_false_2.
Qed.

Lemma parse_document_user_message json_loads call_model system_prompt text_ carrier_hint :
  parse_document json_loads call_model system_prompt text_ carrier_hint
  = bind (call_model system_prompt (user_message text_ carrier_hint))
         (normalize_reply json_loads).
Proof. reflexivity. Qed.

(** The limiter is keyed by what [verify_api_key] returns, not by the key
    the caller shows: two callers with different allowed keys get the same
    answer and leave the same table, and no entry of the table other than
    [direct] is touched. *)
Theorem direct_callers_share_one_bucket :
  forall (json_loads : text -> result json) (call_model : text -> text -> result text)
         (str_to_float : string -> option Q) (str_to_int : string -> option Z)
         (RATE_LIMIT RATE_WINDOW : Z) (SYSTEM_PROMPT : doc_kind -> text)
         (secret : text) (keys : gset text) (rapidapi_secret : option text)
         (key1 key2 : text) (k : doc_kind) (req : ParseRequest) (now : Q)
         (store : gmap string (list Q)),
    let handle key :=
      with_auth secret keys rapidapi_secret (Some {| x_api_key := Some key |})
        (parse_text json_loads call_model str_to_float str_to_int
           RATE_LIMIT RATE_WINDOW SYSTEM_PROMPT k req)
        now store in
    secret = [] \/ rapidapi_secret <> Some secret ->
    key1 ∈ keys ->
    key2 ∈ keys ->
    handle key1 = handle key2
    /\ fst (handle key1)
       = fst (check_rate_limit RATE_LIMIT RATE_WINDOW now "direct" store)
    /\ forall other, other <> "direct"%string -> fst (handle key1) !! other = store !! other.
Proof.
  intros jl cm s2f s2i L W prompt secret keys hdr key1 key2 k req now store handle
    Hsecret H1 H2.
  assert (forall key, key ∈ keys ->
            handle key
            = parse_text jl cm s2f s2i L W prompt k req (t "direct") now store) as Hh.
  { intros key Hkey. unfold handle, with_auth. by rewrite verify_direct. }
  rewrite !Hh by done. split; [done|].
  unfold parse_text. change (string_of_list_ascii (t "direct")) with "direct"%string.
  destruct (check_rate_limit L W now "direct" store) as [store1 r] eqn:E. simpl.
  split; [done|]. intros other Hne.
  pose proof (check_rate_limit_other L W now "direct" other store Hne) as Ho.
  by rewrite E in Ho.
Qed.

Lemma direct_callers_share_one_bucket_witness :
  let handle key :=
    with_auth [] (INTERNAL_API_KEYS (Some (t "alpha,beta"))) None
      (Some {| x_api_key := Some key |})
      (parse_text JsonRef.json_loads (fun _ _ => Ok (js "{'confidence': 0.5}"))
         NumRef.float_of_str NumRef.int_of_str 1 60 (fun _ => [])
         FreightInvoice {| req_text := t "FREIGHT INVOICE APX-2026-00847";
                           req_carrier_hint := None |})
      0%Q {[ "direct"%string := [ -1 ]%Q ]} in
  handle (t "alpha") = handle (t "beta")
  /\ fst (handle (t "alpha"))
     = fst (check_rate_limit 1 60 0%Q "direct" {[ "direct"%string := [ -1 ]%Q ]})
  /\ forall other, other <> "direct"%string ->
       fst (handle (t "alpha")) !! other
       = ({[ "direct"%string := [ -1 ]%Q ]} : gmap string (list Q)) !! other.
Proof.
  apply (direct_callers_share_one_bucket JsonRef.json_loads
           (fun _ _ => Ok (js "{'confidence': 0.5}"))
           NumRef.float_of_str NumRef.int_of_str 1 60 (fun _ => [])
           [] (INTERNAL_API_KEYS (Some (t "alpha,beta"))) None (t "alpha") (t "beta")).
  - by left.
  - apply (bool_decide_unpack _). vm_compute. exact I.
  - apply (bool_decide_unpack _). vm_compute. exact I.
Defined.

(** A caller with neither the proxy secret nor an allowed key gets the 401
    from every route, and the table is left as it was: the body of the
    route, with its limiter and its model call, does not run. *)
Theorem unauthenticated_request_changes_nothing :
  forall (A : Type) (secret : text) (keys : gset text) (rapidapi_secret : option text)
         (request : option Request)
         (body : text -> Q -> gmap string (list Q) -> gmap string (list Q) * result A)
         (now : Q) (store : gmap string (list Q)),
    secret = [] \/ rapidapi_secret <> Some secret ->
    direct_key request ∉ keys ->
    with_auth secret keys rapidapi_secret request body now store
    = (store, Raise UNAUTHORIZED).
Proof.
  intros A secret keys hdr request body now store Hsecret Hkey.
  unfold with_auth. by rewrite verify_refused.
Qed.

Lemma unauthenticated_request_changes_nothing_witness :
  with_auth (t "s3cret") (INTERNAL_API_KEYS None) (Some (t "guess"))
    (Some {| x_api_key := Some (t "Test-Key") |})
    (parse_text JsonRef.json_loads (fun _ _ => Ok (js "{'confidence': 0.5}"))
       NumRef.float_of_str NumRef.int_of_str 60 60 (fun _ => [])
       BillOfLading {| req_text := t "BILL OF LADING B/L No: MEDU4712839";
                       req_carrier_hint := Some (t "MSC") |})
    0%Q ∅
  = (∅, Raise UNAUTHORIZED).
Proof.
  apply (unauthenticated_request_changes_nothing pyval (t "s3cret") (INTERNAL_API_KEYS None)
           (Some (t "guess")) (Some {| x_api_key := Some (t "Test-Key") |})).
  - right. discriminate.
  - apply (bool_decide_unpack _). vm_compute. exact I.
Defined.

(** A request that the limiter refuses ends there: the 429 is the answer
    of the text route and of the upload route whatever the model, the JSON
    reader, the backend and the payload are, and the table is the
    limiter's. *)
Theorem refused_request_reaches_nothing :
  forall (json_loads : text -> result json) (call_model : text -> text -> result text)
         (str_to_float : string -> option Q) (str_to_int : string -> option Z)
         (RATE_LIMIT RATE_WINDOW : Z) (SYSTEM_PROMPT : doc_kind -> text)
         (B : backend) (k : doc_kind) (req : ParseRequest) (file : UploadFile)
         (carrier_hint : option text) (auth : text) (now : Q)
         (store store1 : gmap string (list Q)) (e : exn),
    check_rate_limit RATE_LIMIT RATE_WINDOW now (string_of_list_ascii auth) store
    = (store1, Raise e) ->
    parse_text json_loads call_model str_to_float str_to_int
      RATE_LIMIT RATE_WINDOW SYSTEM_PROMPT k req auth now store
    = (store1, Raise e)
    /\ parse_upload json_loads call_model str_to_float str_to_int
         RATE_LIMIT RATE_WINDOW SYSTEM_PROMPT B k file carrier_hint auth now store
       = (store1, Raise e)
    /\ e = RATE_LIMITED RATE_LIMIT RATE_WINDOW.
Proof.
  intros jl cm s2f s2i L W prompt B k req file hint auth now store store1 e H.
  unfold parse_text, parse_upload. rewrite H. split; [done|]. split; [done|].
  unfold check_rate_limit in H. destruct (L <=? _); by simplify_eq.
Qed.

Lemma refused_request_reaches_nothing_witness :
  parse_text JsonRef.json_loads (fun _ _ => Ok (js "{'confidence': 0.5}"))
    NumRef.float_of_str NumRef.int_of_str 1 60 (fun _ => [])
    PackingList {| req_text := t "PACKING LIST PL-GZ-2026-0471"; req_carrier_hint := None |}
    (t "direct") 30%Q {[ "direct"%string := [ 0 ]%Q ]}
  = ({[ "direct"%string := [ 0 ]%Q ]}, Raise (RATE_LIMITED 1 60))
  /\ parse_upload JsonRef.json_loads (fun _ _ => Ok (js "{'confidence': 0.5}"))
       NumRef.float_of_str NumRef.int_of_str 1 60 (fun _ => [])
       sample_backend PackingList small_pdf None
       (t "direct") 30%Q {[ "direct"%string := [ 0 ]%Q ]}
     = ({[ "direct"%string := [ 0 ]%Q ]}, Raise (RATE_LIMITED 1 60))
  /\ RATE_LIMITED 1 60 = RATE_LIMITED 1 60.
Proof.
  apply (refused_request_reaches_nothing JsonRef.json_loads
           (fun _ _ => Ok (js "{'confidence': 0.5}"))
           NumRef.float_of_str NumRef.int_of_str 1 60 (fun _ => [])
           sample_backend PackingList
           {| req_text := t "PACKING LIST PL-GZ-2026-0471"; req_carrier_hint := None |}
           small_pdf None (t "direct") 30%Q {[ "direct"%string := [ 0 ]%Q ]}).
  vm_compute. reflexivity.
Defined.

(** A request is counted when it is admitted, before anything else runs.
    On a text route, when the model call fails, its error is the answer;
    on an upload route, when the extraction fails (too large, unsupported,
    unreadable), its error is the answer, whatever the model would do; and
    in both cases the caller's hit is in the table all the same. *)
Theorem failed_request_is_still_counted :
  forall (json_loads : text -> result json) (call_model : text -> text -> result text)
         (str_to_float : string -> option Q) (str_to_int : string -> option Z)
         (RATE_LIMIT RATE_WINDOW : Z) (SYSTEM_PROMPT : doc_kind -> text)
         (B : backend) (k : doc_kind) (req : ParseRequest) (file : UploadFile)
         (carrier_hint : option text) (auth : text) (now : Q)
         (store store1 : gmap string (list Q)),
    check_rate_limit RATE_LIMIT RATE_WINDOW now (string_of_list_ascii auth) store
    = (store1, Ok tt) ->
    (forall e,
        call_model (SYSTEM_PROMPT k)
          (user_message (req_text req) (route_hint k (req_carrier_hint req))) = Raise e ->
        parse_text json_loads call_model str_to_float str_to_int
          RATE_LIMIT RATE_WINDOW SYSTEM_PROMPT k req auth now store
        = (store1, Raise e))
    /\ (forall e,
          snd (extract_text_from_upload B file) = Raise e ->
          parse_upload json_loads call_model str_to_float str_to_int
            RATE_LIMIT RATE_WINDOW SYSTEM_PROMPT B k file carrier_hint auth now store
          = (store1, Raise e))
    /\ exists hits, store1 !! string_of_list_ascii auth = Some (hits ++ [now]).
Proof.
  intros jl cm s2f s2i L W prompt B k req file hint auth now store store1 Hadm.
  unfold parse_text, parse_upload. rewrite Hadm. cbn [bind].
  split; [|split].
  - intros e Hmodel. unfold parse_route. by rewrite parse_document_user_message, Hmodel.
  - intros e Hextract. by rewrite Hextract.
  - unfold check_rate_limit in Hadm. destruct (L <=? _); simplify_eq.
    eexists. apply lookup_insert_eq.
Qed.

Lemma failed_request_is_still_counted_witness :
  let store1 : gmap string (list Q) := {[ "direct"%string := [ 0; 30 ]%Q ]} in
  let healthy : text -> text -> result text := fun _ _ => Ok (js "{'confidence': 0.5}") in
  let overloaded : text -> text -> result text :=
    fun _ _ => Raise (HTTPException 502 (t "AI model error: overloaded")) in
  parse_text JsonRef.json_loads overloaded
    NumRef.float_of_str NumRef.int_of_str 60 60 (fun _ => [])
    BillOfLading {| req_text := t "BILL OF LADING B/L No: MEDU4712839";
                    req_carrier_hint := Some (t "MSC") |}
    (t "direct") 30%Q {[ "direct"%string := [ 0 ]%Q ]}
  = (store1, Raise (HTTPException 502 (t "AI model error: overloaded")))
  /\ parse_upload JsonRef.json_loads healthy
       NumRef.float_of_str NumRef.int_of_str 60 60 (fun _ => [])
       sample_backend BillOfLading
       {| file_content := t "PK";
          file_content_type := Some (t "application/zip");
          file_filename := Some (t "documents.zip") |}
       None (t "direct") 30%Q {[ "direct"%string := [ 0 ]%Q ]}
     = (store1, Raise (UNSUPPORTED (t "application/zip")))
  /\ exists hits, store1 !! "direct"%string = Some (hits ++ [ 30%Q ]).
Proof.
  intros store1 healthy overloaded.
  assert (check_rate_limit 60 60 30%Q (string_of_list_ascii (t "direct"))
            {[ "direct"%string := [ 0 ]%Q ]} = (store1, Ok tt)) as Hadm
    by (vm_compute; reflexivity).
  split; [|split].
  - apply (proj1 (failed_request_is_still_counted JsonRef.json_loads overloaded
                    NumRef.float_of_str NumRef.int_of_str 60 60 (fun _ => [])
                    sample_backend BillOfLading
                    {| req_text := t "BILL OF LADING B/L No: MEDU4712839";
                       req_carrier_hint := Some (t "MSC") |}
                    {| file_content := t "PK";
                       file_content_type := Some (t "application/zip");
                       file_filename := Some (t "documents.zip") |}
                    None (t "direct") 30%Q {[ "direct"%string := [ 0 ]%Q ]} store1 Hadm)).
    reflexivity.
  - apply (proj1 (proj2 (failed_request_is_still_counted JsonRef.json_loads healthy
                    NumRef.float_of_str NumRef.int_of_str 60 60 (fun _ => [])
                    sample_backend BillOfLading
                    {| req_text := t "BILL OF LADING B/L No: MEDU4712839";
                       req_carrier_hint := Some (t "MSC") |}
                    {| file_content := t "PK";
                       file_content_type := Some (t "application/zip");
                       file_filename := Some (t "documents.zip") |}
                    None (t "direct") 30%Q {[ "direct"%string := [ 0 ]%Q ]} store1 Hadm))).
    reflexivity.
  - apply (proj2 (proj2 (failed_request_is_still_counted JsonRef.json_loads healthy
                    NumRef.float_of_str NumRef.int_of_str 60 60 (fun _ => [])
                    sample_backend BillOfLading
                    {| req_text := t "BILL OF LADING B/L No: MEDU4712839";
                       req_carrier_hint := Some (t "MSC") |}
                    {| file_content := t "PK";
                       file_content_type := Some (t "application/zip");
                       file_filename := Some (t "documents.zip") |}
                    None (t "direct") 30%Q {[ "direct"%string := [ 0 ]%Q ]} store1 Hadm))).
Defined.

(** ** More on schema binding *)

Lemma dict_get_other_key n key v d1 d2 :
  n <> key -> dict_get n (d1 ++ (key, v) :: d2) = dict_get n (d1 ++ d2).
Proof.
  intros Hne. induction d1 as [|[k' v'] d1 IH]; simpl.
  - destruct (dict_get n d2); [done|]. by destruct (String.eqb_spec n key).
  - by rewrite IH.
Qed.

Lemma field_value_same_lookup s2f s2i d d' (f : field) :
  dict_get (fst f) d = dict_get (fst f) d' ->
  field_value s2f s2i d f = field_value s2f s2i d' f.
Proof. intros H. unfold field_value. by rewrite H. Qed.

Lemma bind_fields_same_lookups s2f s2i d d' fs :
  (forall f, f ∈ fs -> dict_get (fst f) d = dict_get (fst f) d') ->
  bind_fields s2f s2i d fs = bind_fields s2f s2i d' fs.
Proof.
  intros H. unfold bind_fields. induction fs as [|f fs IH]; [done|].
  simpl. rewrite (field_value_same_lookup s2f s2i d d' f) by (apply H; by left).
  rewrite IH; [done|]. intros g Hg. apply H. by right.
Qed.

(** A key that the model does not declare changes nothing, wherever it
    stands in the object: it is neither kept nor a reason to refuse. *)
Theorem undeclared_keys_are_ignored :
  forall (str_to_float : string -> option Q) (str_to_int : string -> option Z)
         (model : list field) (d1 d2 : list (string * json)) (key : string) (v : json),
    key ∉ map fst model ->
    construct str_to_float str_to_int model (JObj (d1 ++ (key, v) :: d2))
    = construct str_to_float str_to_int model (JObj (d1 ++ d2)).
Proof.
  intros s2f s2i model d1 d2 key v Hkey. unfold construct.
  rewrite !validate_model.
  rewrite (bind_fields_same_lookups s2f s2i (d1 ++ (key, v) :: d2) (d1 ++ d2)); [done|].
  intros f Hf. apply dict_get_other_key. intros <-. apply Hkey.
  by apply (list_elem_of_fmap_2 fst model f).
Qed.

Lemma undeclared_keys_are_ignored_witness :
  construct NumRef.float_of_str NumRef.int_of_str PackingListResponse
    (JObj ([("date"%string, JStr "2026-01-12")]
           ++ ("total_cartons"%string, JList [JInt 1240]) :: [("confidence"%string, JInt 1)]))
  = construct NumRef.float_of_str NumRef.int_of_str PackingListResponse
      (JObj ([("date"%string, JStr "2026-01-12")] ++ [("confidence"%string, JInt 1)])).
Proof.
  apply (undeclared_keys_are_ignored NumRef.float_of_str NumRef.int_of_str PackingListResponse).
  apply (bool_decide_unpack _). vm_compute. exact I.
Defined.

Lemma null_refused s2f s2i ty :
  match ty with TOptional _ => True | _ => validate s2f s2i ty JNull = None end.
Proof. by destruct ty. Qed.

(** An explicit null does what the field's annotation says: under an
    optional field it gives the same null as leaving the key out; under
    any other field of a response model (the lists and [confidence]) it
    makes the construction fail with the validation error. *)
Theorem null_is_absent_or_refused :
  forall (str_to_float : string -> option Q) (str_to_int : string -> option Z)
         (k : doc_kind) (d : list (string * json))
         (n : string) (ty : ftype) (dflt : fdefault),
    (n, (ty, dflt)) ∈ response_model k ->
    dict_get n d = Some JNull ->
    match ty with
    | TOptional _ =>
        dflt = Default VNone /\
        forall r, construct str_to_float str_to_int (response_model k) (JObj d) = Ok r ->
                  attr n r = Some VNone
    | _ => construct str_to_float str_to_int (response_model k) (JObj d) = Raise ValidationError
    end.
Proof.
  intros s2f s2i k d n ty dflt Hin Hnull.
  assert (field_value s2f s2i d (n, (ty, dflt)) = validate s2f s2i ty JNull) as Hfv.
  { unfold field_value. simpl. by rewrite Hnull. }
  pose proof (null_refused s2f s2i ty) as Hty.
  assert (forall ty', ty = ty' -> validate s2f s2i ty' JNull = None ->
            construct s2f s2i (response_model k) (JObj d) = Raise ValidationError) as Hfail.
  { intros ty' -> Hv. unfold construct. rewrite validate_model.
    rewrite (bind_fields_refused s2f s2i d _ (n, (ty', dflt))); [done..|].
    by rewrite Hfv. }
  destruct ty; try (by eapply Hfail).
  split.
  - destruct (response_field_default k _ Hin) as (v & Hd & Hdecl). simpl in Hd, Hdecl.
    congruence.
  - intros r Hr. by rewrite (construct_attr s2f s2i k d r _ _ _ Hr Hin), Hfv.
Qed.

Lemma null_is_absent_or_refused_witness :
  construct NumRef.float_of_str NumRef.int_of_str BOLResponse
    (JObj [("bol_number"%string, JStr "MEDU4712839"); ("hs_codes"%string, JNull)])
  = Raise ValidationError
  /\ (Default VNone = Default VNone /\
      forall r,
        construct NumRef.float_of_str NumRef.int_of_str BOLResponse
          (JObj [("carrier"%string, JNull); ("confidence"%string, JFloat (1 # 2))]) = Ok r ->
        attr "carrier" r = Some VNone).
Proof.
  split.
  - apply (null_is_absent_or_refused NumRef.float_of_str NumRef.int_of_str BillOfLading
             [("bol_number"%string, JStr "MEDU4712839"); ("hs_codes"%string, JNull)]
             "hs_codes" (TList TStr) (Default (VList []))); [repeat constructor|reflexivity].
  - apply (null_is_absent_or_refused NumRef.float_of_str NumRef.int_of_str BillOfLading
             [("carrier"%string, JNull); ("confidence"%string, JFloat (1 # 2))]
             "carrier" (TOptional TStr) (Default VNone)); [repeat constructor|reflexivity].
Defined.

Lemma item_without_description_is_wrong s2f s2i (fs : list field) item :
  ("description"%string, (TStr, Required)) ∈ fs ->
  (forall s, dict_get "description" item <> Some (JStr s)) ->
  wrong_shape s2f s2i (TModel fs) (JObj item).
Proof.
  intros Hin Hno. destruct (dict_get "description" item) as [x|] eqn:E.
  - eapply ws_model_field; [exact Hin|exact E|]. apply ws_str.
    destruct x; try done. by destruct (Hno s).
  - eapply ws_model_missing; [exact Hin|exact E].
Qed.

(** An invoice with a line item, or a packing list with an item, that has
    no [description] or one that is not text is refused as a whole, however
    good the rest of the reply is. *)
Theorem items_need_a_text_description :
  forall (str_to_float : string -> option Q) (str_to_int : string -> option Z)
         (d item : list (string * json)) (items : list json),
    JObj item ∈ items ->
    (forall s, dict_get "description" item <> Some (JStr s)) ->
    (dict_get "line_items" d = Some (JList items) ->
     construct str_to_float str_to_int FreightInvoiceResponse (JObj d) = Raise ValidationError)
    /\ (dict_get "items" d = Some (JList items) ->
        construct str_to_float str_to_int PackingListResponse (JObj d) = Raise ValidationError).
Proof.
  intros s2f s2i d item items Hitem Hno. split; intros Hget; unfold construct.
  - rewrite (wrong_shape_refused s2f s2i); [done|].
    eapply (ws_model_field _ _ _ _ "line_items"); [repeat constructor|exact Hget|].
    eapply ws_list_item; [exact Hitem|].
    apply item_without_description_is_wrong; [repeat constructor|done].
  - rewrite (wrong_shape_refused s2f s2i); [done|].
    eapply (ws_model_field _ _ _ _ "items"); [repeat constructor|exact Hget|].
    eapply ws_list_item; [exact Hitem|].
    apply item_without_description_is_wrong; [repeat constructor|done].
Qed.

Lemma items_need_a_text_description_witness :
  let items := [JObj [("description"%string, JStr "Ocean Freight"); ("amount"%string, JInt 4200)];
                JObj [("description"%string, JInt 7); ("amount"%string, JInt 680)]] in
  (dict_get "line_items" [("invoice_number"%string, JStr "APX-2026-00847");
                          ("line_items"%string, JList items)] = Some (JList items) ->
   construct NumRef.float_of_str NumRef.int_of_str FreightInvoiceResponse
     (JObj [("invoice_number"%string, JStr "APX-2026-00847");
            ("line_items"%string, JList items)]) = Raise ValidationError)
  /\ (dict_get "items" [("invoice_number"%string, JStr "APX-2026-00847");
                        ("line_items"%string, JList items)] = Some (JList items) ->
      construct NumRef.float_of_str NumRef.int_of_str PackingListResponse
        (JObj [("invoice_number"%string, JStr "APX-2026-00847");
               ("line_items"%string, JList items)]) = Raise ValidationError).
Proof.
  apply (items_need_a_text_description NumRef.float_of_str NumRef.int_of_str
           [("invoice_number"%string, JStr "APX-2026-00847");
            ("line_items"%string,
             JList [JObj [("description"%string, JStr "Ocean Freight"); ("amount"%string, JInt 4200)];
                    JObj [("description"%string, JInt 7); ("amount"%string, JInt 680)]])]
           [("description"%string, JInt 7); ("amount"%string, JInt 680)]).
  - repeat constructor.
  - intros s H. discriminate H.
Defined.

(** ** More on the response normalizer *)

Lemma lstrip_app_blank a x : forallb is_space a = true -> lstrip (a ++ x) = lstrip x.
Proof.
  induction a as [|c a IH]; simpl; [done|].
  intros [Hc Ha]%andb_true_iff. rewrite Hc. by apply IH.
Qed.

Lemma lstrip_app_not_blank x y : forallb is_space x = false -> lstrip (x ++ y) = lstrip x ++ y.
Proof.
  induction x as [|c x IH]; simpl; [done|].
  destruct (is_space c); simpl; [exact IH|done].
Qed.

Lemma rstrip_app_blank x b : forallb is_space b = true -> rstrip (x ++ b) = rstrip x.
Proof.
  intros Hb. unfold rstrip. rewrite rev_app_distr.
  rewrite lstrip_app_blank; [done|]. by rewrite forallb_rev.
Qed.

Lemma strip_padded a raw b :
  forallb is_space a = true -> forallb is_space b = true ->
  strip (a ++ raw ++ b) = strip raw.
Proof.
  intros Ha Hb. unfold strip. rewrite lstrip_app_blank by done.
  destruct (forallb is_space raw) eqn:E.
  - rewrite lstrip_app_blank by done.
    apply lstrip_nil_iff in Hb as ->. by apply lstrip_nil_iff in E as ->.
  - rewrite lstrip_app_not_blank by done. by apply rstrip_app_blank.
Qed.

(** Blank characters around the reply never matter: the reply padded with
    any whitespace on either side is normalized to the same result. *)
Theorem normalizer_ignores_outer_whitespace :
  forall (json_loads : text -> result json) (raw before after : text),
    forallb is_space before = true ->
    forallb is_space after = true ->
    normalize_reply json_loads (before ++ raw ++ after) = normalize_reply json_loads raw.
Proof.
  intros json_loads raw before after Hb Ha. unfold normalize_reply.
  by rewrite strip_padded.
Qed.

Lemma normalizer_ignores_outer_whitespace_witness :
  normalize_reply JsonRef.json_loads
    ([nl; " "%char] ++ js "Sure! {'carrier': 'MSC'}" ++ [" "%char; nl; nl])
  = normalize_reply JsonRef.json_loads (js "Sure! {'carrier': 'MSC'}").
Proof.
  apply (normalizer_ignores_outer_whitespace JsonRef.json_loads); reflexivity.
Defined.

Lemma find_spec c s :
  (c ∉ s /\ find c s = -1)
  \/ (exists pre rest, s = pre ++ c :: rest /\ c ∉ pre /\ find c s = Z.of_nat (length pre)).
Proof.
  destruct (decide (c ∈ s)) as [Hin|Hout].
  - right. apply list_elem_of_split_l in Hin as (pre & rest & -> & Hpre).
    exists pre, rest. split; [done|]. split; [done|]. by apply find_skip.
  - left. split; [done|]. by apply find_from_absent.
Qed.

Lemma rfind_spec c s :
  (c ∉ s /\ rfind c s = -1)
  \/ (exists xs post, s = xs ++ c :: post /\ c ∉ post /\ rfind c s = Z.of_nat (length xs)).
Proof.
  destruct (decide (c ∈ s)) as [Hin|Hout].
  - right. apply list_elem_of_split_r in Hin as (xs & post & -> & Hpost).
    exists xs, post. split; [done|]. split; [done|]. by apply rfind_skip.
  - left. split; [done|]. unfold rfind, find.
    rewrite find_from_absent by by apply not_elem_rev. done.
Qed.

(** The test of line 488 holds exactly when the text has a brace span. *)
Lemma span_test_spec s :
  (0 <=? find "{" s) && (find "{" s <? rfind "}" s + 1) = true <-> has_span s.
Proof.
  rewrite andb_true_iff, Z.leb_le, Z.ltb_lt. split.
  - intros [H0 H1].
    destruct (find_spec "{" s) as [[_ Hf]|(pre & rest & Hs & Hpre & Hf)]; [lia|].
    destruct (rfind_spec "}" s) as [[_ Hr]|(xs & post & Hs' & Hpost & Hr)]; [lia|].
    rewrite Hf, Hr in H1. rewrite Hs in Hs'.
    apply app_eq_app in Hs' as [l [[Hl1 Hl2]|[Hl1 Hl2]]].
    + destruct l as [|x l]; [by simplify_eq|].
      rewrite Hl1, length_app in H1. simpl in H1. lia.
    + destruct l as [|x l]; [by simplify_eq|].
      simpl in Hl2. injection Hl2 as <- Hrest.
      exists pre, l, post. by rewrite Hs, Hrest.
  - intros (a & b & c & Hs).
    destruct (find_spec "{" s) as [[Hno _]|(pre & rest & Hs1 & Hpre & Hf)].
    { exfalso. apply Hno. rewrite Hs. apply elem_of_app. right. by left. }
    destruct (rfind_spec "}" s) as [[Hno _]|(xs & post & Hs2 & Hpost & Hr)].
    { exfalso. apply Hno. rewrite Hs. apply elem_of_app. right. right.
      apply elem_of_app. right. by left. }
    rewrite Hf, Hr.
    assert (length pre <= length a)%nat as Hle1.
    { rewrite Hs in Hs1. apply app_eq_app in Hs1 as [l [[Hl1 Hl2]|[Hl1 Hl2]]].
      - rewrite Hl1, length_app. lia.
      - destruct l as [|x l]; [rewrite Hl1, length_app; simpl; lia|].
        simpl in Hl2. injection Hl2 as <- _. exfalso. apply Hpre.
        rewrite Hl1. apply elem_of_app. right. by left. }
    assert (length a + 1 + length b <= length xs)%nat as Hle2.
    { assert (s = (a ++ "{"%char :: b) ++ "}"%char :: c) as Hs3
        by (rewrite Hs, <- app_assoc; done).
      rewrite Hs3 in Hs2. apply app_eq_app in Hs2 as [l [[Hl1 Hl2]|[Hl1 Hl2]]].
      - destruct l as [|x l].
        + rewrite app_nil_r in Hl1. rewrite <- Hl1, length_app. simpl. lia.
        + simpl in Hl2. injection Hl2 as <- Hc. exfalso. apply Hpost.
          rewrite Hc. apply elem_of_app. right. by left.
      - rewrite Hl1, !length_app. simpl. lia. }
    lia.
Qed.

(** What the normalizer of [parse_document] raises, and exactly when.  It
    raises the 502 when the first [json.loads] fails with
    [json.JSONDecodeError] and the cleaned reply has no brace span.  It
    lets through whatever the second [json.loads] raises on the text from
    the first opening brace to the last closing brace,
    [json.JSONDecodeError] included, when the first one fails with
    [json.JSONDecodeError] and there is a brace span.  It lets through
    whatever else the first [json.loads] raises.  Nothing is raised in any
    other way. *)
Theorem normalizer_failure_modes :
  forall (json_loads : text -> result json) (raw : text) (e : exn),
    let cleaned := strip_fences (strip raw) in
    let span := slice cleaned (find "{" cleaned) (rfind "}" cleaned + 1) in
    normalize_reply json_loads raw = Raise e <->
    (json_loads cleaned = Raise JSONDecodeError /\ ~ has_span cleaned /\ e = PARSE_FAILURE)
    \/ (json_loads cleaned = Raise JSONDecodeError /\ has_span cleaned /\
        json_loads span = Raise e)
    \/ (json_loads cleaned = Raise e /\ e <> JSONDecodeError).
Proof.
  intros json_loads raw e cleaned span. unfold normalize_reply. fold cleaned. fold span.
  pose proof (span_test_spec cleaned) as Hspan.
  destruct (json_loads cleaned) as [v|e0]; [naive_solver|].
  destruct e0; try naive_solver.
  destruct ((0 <=? find "{" cleaned) && (find "{" cleaned <? rfind "}" cleaned + 1)) eqn:E.
  - assert (has_span cleaned) as Hs by by apply Hspan.
    naive_solver.
  - assert (~ has_span cleaned) as Hs by (intros H; apply Hspan in H; congruence).
    naive_solver.
Qed.

(** A reader that gives up on deep nesting, as [json.loads] does with
    [RecursionError]: the exception passes through the normalizer, once
    from the first call and once from the call on the brace span. *)
Example recursion_error_passes_through :
  let loads := fun s : text =>
    if startswith (js "[[[[") s || startswith (js "{'a': [[[[") s then Raise RecursionError
    else JsonRef.json_loads s in
  normalize_reply loads (js "[[[[1]]]]") = Raise RecursionError
  /\ normalize_reply loads (js "Result: {'a': [[[[1]]]]}") = Raise RecursionError.
Proof. vm_compute. split; reflexivity. Qed.

(** ** More on text extraction *)


Lemma not_blank_elem c (s : text) : c ∈ s -> is_space c = false -> forallb is_space s = false.
Proof.
  intros Hin Hc. induction Hin as [c s|c x s _ IH]; simpl.
  - by rewrite Hc.
  - rewrite IH by done. apply andb_false_r.
Qed.

Lemma strip_nonempty_iff s : nonempty (strip s) = true <-> forallb is_space s = false.
Proof.
  pose proof (strip_empty_iff s) as H.
  destruct (nonempty (strip s)), (forallb is_space s); naive_solver.
Qed.


Lemma pipe_in_row row : (2 <= length row)%nat -> "|"%char ∈ row_text row.
Proof.
  destruct row as [|a [|b row]]; simpl; [lia..|]. intros _.
  unfold row_text.
  change (map cell_text (a :: b :: row))
    with (cell_text a :: cell_text b :: map cell_text row).
  change (join (t " | ") (cell_text a :: cell_text b :: map cell_text row))
    with (cell_text a ++ t " | " ++ join (t " | ") (cell_text b :: map cell_text row)).
  apply elem_of_app. right. apply elem_of_app. left.
  apply list_elem_of_In. simpl. tauto.
Qed.

Lemma row_in_pdf_lines (pdf : list pdf_page) page table row :
  page ∈ pdf -> table ∈ page_tables page -> row ∈ table ->
  row_text row ∈ concat (map page_lines pdf).
Proof.
  intros Hpage Htable Hrow. apply list_elem_of_In, in_concat.
  exists (page_lines page). split.
  - apply in_map. by apply list_elem_of_In.
  - unfold page_lines. apply in_or_app. right. apply in_map, in_concat.
    exists table. split; by apply list_elem_of_In.
Qed.

(** One table row of two cells or more is enough for a PDF to pass the
    image-only check, whatever is in the cells: the pipe that joins the
    cells is text.  A scan on which only an empty grid is found is
    returned as text, not refused with the 422. *)
Theorem table_row_defeats_image_only_check :
  forall (B : backend) (file : UploadFile) (pdf : list pdf_page)
         (page : pdf_page) (table : list (list (option text)))
         (row : list (option text)),
    let content_type := default [] (file_content_type file) in
    let filename := lower (default [] (file_filename file)) in
    Z.of_nat (length (file_content file)) <= MAX_FILE_SIZE ->
    is_text_upload content_type filename = false ->
    is_pdf_upload content_type filename = true ->
    pdf_open B (file_content file) = inl pdf ->
    page ∈ pdf -> table ∈ page_tables page -> row ∈ table ->
    (2 <= length row)%nat ->
    extract_text_from_upload B file = ([PdfParse], Ok (pdf_text pdf)).
Proof.
  intros B file pdf page table row content_type filename
    Hsize Htext Hpdf Hopen Hpage Htable Hrow Hlen.
  unfold extract_text_from_upload. fold content_type. fold filename.
  rewrite (proj2 (Z.ltb_ge _ _) Hsize), Htext, Hpdf, Hopen.
  rewrite collect_pages_spec.
  assert (nonempty (strip (pdf_text pdf)) = true) as ->; [|done].
  apply strip_nonempty_iff, (not_blank_elem "|"); [|done].
  unfold pdf_text. eapply elem_join; [|by apply pipe_in_row].
  by eapply row_in_pdf_lines.
Qed.

Lemma table_row_defeats_image_only_check_witness :
  extract_text_from_upload empty_table_backend small_pdf
  = ([PdfParse], Ok (t " | ")).
Proof.
  apply (table_row_defeats_image_only_check empty_table_backend small_pdf
           [ {| page_text := None; page_tables := [ [ [None; None] ] ] |} ]
           {| page_text := None; page_tables := [ [ [None; None] ] ] |}
           [ [None; None] ] [None; None]).
  - vm_compute. discriminate.
  - reflexivity.
  - reflexivity.
  - reflexivity.
  - by left.
  - by left.
  - by left.
  - simpl. lia.
Defined.

(** ** The ceiling over any sequence of calls *)

Lemma serve_app L W xs ys store :
  serve L W (xs ++ ys) store = serve L W ys (serve L W xs store).
Proof.
  revert store. induction xs as [|[k t0] xs IH]; intros store; simpl; [done|]. apply IH.
Qed.

Lemma admitted_app L W xs ys store :
  admitted L W (xs ++ ys) store
  = admitted L W xs store ++ admitted L W ys (serve L W xs store).
Proof.
  revert store. induction xs as [|[k t0] xs IH]; intros store; simpl; [done|].
  destruct (check_rate_limit L W t0 k store) as [store1 r]. simpl.
  by rewrite IH, app_assoc.
Qed.

Lemma live_mono W (earlier later h : Q) :
  (earlier <= later)%Q -> live W later h = true -> live W earlier h = true.
Proof.
  unfold live, Qltb. rewrite !negb_true_iff. intros Hle Hlive.
  destruct (Qle_bool (inject_Z W) (earlier - h)) eqn:E; [|done].
  apply Qle_bool_iff in E.
  assert (inject_Z W <= later - h)%Q as H by lra.
  apply Qle_bool_iff in H. congruence.
Qed.

Lemma filter_filter_weaker {A} (f g : A -> bool) l :
  (forall x, f x = true -> g x = true) ->
  List.filter f (List.filter g l) = List.filter f l.
Proof.
  intros Hfg. induction l as [|x l IH]; simpl; [done|].
  destruct (g x) eqn:Eg; simpl.
  - by rewrite IH.
  - destruct (f x) eqn:Ef; [|done]. apply Hfg in Ef. congruence.
Qed.

Lemma ascending_snoc times (last : Q) :
  ascending (times ++ [last]) = true ->
  ascending times = true /\ Forall (fun a => (a <= last)%Q) times.
Proof.
  induction times as [|a [|b times] IH]; [done|..].
  - simpl. intros [H _]%andb_true_iff. apply Qle_bool_iff in H.
    split; [done|]. by constructor.
  - change (ascending ((a :: b :: times) ++ [last]))
      with (Qle_bool a b && ascending ((b :: times) ++ [last])).
    intros [Hab Hrest]%andb_true_iff. destruct (IH Hrest) as [Hasc Hall].
    split.
    + change (ascending (a :: b :: times)) with (Qle_bool a b && ascending (b :: times)).
      by rewrite Hab, Hasc.
    + constructor; [|done]. apply Qle_bool_iff in Hab.
      apply Forall_inv in Hall. by apply Qle_trans with b.
Qed.

(** What is still in the window of a key's list is what was let through
    for that key less than a window ago. *)
Lemma live_hits_are_admitted_calls L W requests :
  ascending (map snd requests) = true ->
  forall (key : string) (now : Q),
    Forall (fun a => (a <= now)%Q) (map snd requests) ->
    List.filter (live W now) (default [] (serve L W requests ∅ !! key))
    = map snd (List.filter (in_window W key now) (admitted L W requests ∅)).
Proof.
  induction requests as [|[k t0] xs IH] using rev_ind; intros Hasc key now Hnow.
  { simpl. by rewrite lookup_empty. }
  rewrite map_app in Hasc, Hnow. simpl in Hasc, Hnow.
  apply ascending_snoc in Hasc as [Hasc Hbefore].
  apply Forall_app in Hnow as [Hxs Ht0]. apply Forall_inv in Ht0.
  specialize (IH Hasc).
  rewrite serve_app, admitted_app. simpl.
  set (S0 := serve L W xs ∅) in *. set (A0 := admitted L W xs ∅) in *.
  unfold check_rate_limit.
  pose proof (IH k t0 Hbefore) as IHk.
  destruct (L <=? _); simpl.
  - rewrite app_nil_r. destruct (decide (key = k)) as [->|Hne].
    + rewrite lookup_insert_eq. simpl.
      rewrite filter_filter_weaker by (intros h; by apply live_mono).
      by apply IH.
    + rewrite lookup_insert_ne by done. by apply IH.
  - rewrite List.filter_app, map_app. simpl.
    destruct (decide (key = k)) as [->|Hne].
    + rewrite lookup_insert_eq. simpl. rewrite List.filter_app.
      rewrite filter_filter_weaker by (intros h; by apply live_mono).
      rewrite (IH k now Hxs). f_equal.
      unfold in_window. simpl. rewrite bool_decide_eq_true_2 by done. simpl.
      by destruct (live W now t0).
    + rewrite lookup_insert_ne by done. rewrite (IH key now Hxs).
      assert (in_window W key now (k, t0) = false) as ->.
      { unfold in_window. simpl. by rewrite bool_decide_eq_false_2. }
      simpl. by rewrite app_nil_r.
Qed.

(** The ceiling holds over every window, for any mix of callers: when the
    clock does not run backwards and a call is let through, fewer than
    [RATE_LIMIT] of the calls let through before it were for its key and
    less than a window old.  With the call itself that is at most
    [RATE_LIMIT] in the window that ends at it. *)
Theorem ceiling_holds_in_every_window :
  forall (L W : Z) (earlier : list (string * Q)) (key : string) (now : Q),
    ascending (map snd earlier ++ [now]) = true ->
    snd (check_rate_limit L W now key (serve L W earlier ∅)) = Ok tt ->
    Z.of_nat (length (List.filter (in_window W key now) (admitted L W earlier ∅))) < L.
Proof.
  intros L W earlier key now Hasc Hok.
  apply ascending_snoc in Hasc as [Hasc Hbefore].
  pose proof (live_hits_are_admitted_calls L W earlier Hasc key now Hbefore) as Hinv.
  unfold check_rate_limit in Hok. rewrite Hinv, length_map in Hok.
  destruct (L <=? _) eqn:E; [done|]. by apply Z.leb_gt in E.
Qed.

Lemma ceiling_holds_in_every_window_witness :
  let earlier :=
    [ ("direct"%string, 0%Q); ("rapidapi"%string, 5%Q); ("direct"%string, 10%Q);
      ("direct"%string, 20%Q); ("direct"%string, 65%Q) ] in
  admitted 2 60 earlier ∅
  = [ ("direct"%string, 0%Q); ("rapidapi"%string, 5%Q); ("direct"%string, 10%Q);
      ("direct"%string, 65%Q) ]
  /\ Z.of_nat (length (List.filter (in_window 60 "direct" 75%Q) (admitted 2 60 earlier ∅))) < 2.
Proof.
  split; [vm_compute; reflexivity|].
  apply (ceiling_holds_in_every_window 2 60
           [ ("direct"%string, 0%Q); ("rapidapi"%string, 5%Q); ("direct"%string, 10%Q);
             ("direct"%string, 20%Q); ("direct"%string, 65%Q) ]
           "direct" 75%Q).
  - reflexivity.
  - vm_compute. reflexivity.
Defined.
